(** * brahe: frame-transform kernel and Earth-observation data models

    A shallow embedding of the parts of the [brahe] package that the
    specification's properties speak about.

    - [brahe/data_models/earth_observation.py] is embedded from its source:
      the [set_times] root validator, the [AccessConstraints] validators,
      the [set_center_ecef] validators and the JSON encoders of [EOBase].
    - [brahe.attitude], [brahe.relorbits] and [brahe.orbits] are only
      exercised by the test files; their definitions below follow the
      formulas of the specification and are marked as such.

    Numbers.  The kernel is modelled on real numbers ([R]): the formulas
    need [sqrt], [sin] and [cos], and what is proved there is proved for
    exact real arithmetic.  The relative-state transform is modelled a
    second time in binary64 ([Binary64]), where its rounding can be
    computed.  The data models only compare, add and halve numbers: a
    Python float is the rational it denotes ([Q]), the arithmetic on
    datetimes is exact and checked against the range of the type, and the
    two conversions between a float and a [timedelta], which round in
    binary64, are parameters of [set_times_over]; [set_times] takes them in
    exact arithmetic. *)

From Stdlib Require Import Reals Lra Psatz RNsatz.
From Stdlib Require Import List ZArith QArith Bool String Ascii Lia.
From Stdlib Require Floats.
Import ListNotations.

#[global] Set Warnings "-register-all".

(** ** Exceptions and results *)

Inductive exn : Type :=
| DomainError
| ConvergenceError
| ValueError (msg : string)
| TypeError
| KeyError (key : string)
| OverflowError.

Inductive result (A : Type) : Type :=
| Ok (a : A)
| Raise (e : exn).
Arguments Ok {A} a.
Arguments Raise {A} e.

Definition bind {A B : Type} (m : result A) (k : A -> result B) : result B :=
  match m with
  | Ok a => k a
  | Raise e => Raise e
  end.

Declare Scope result_scope.
Delimit Scope result_scope with result.
Notation "x <- m ;; k" := (bind m (fun x => k))
  (at level 61, m at next level, right associativity) : result_scope.
Notation "' p <- m ;; k" := (bind m (fun x => let 'p := x in k))
  (at level 61, p pattern, m at next level, right associativity) : result_scope.

(** ** Vectors and matrices of the kernel *)

Module Linalg.
Local Open Scope R_scope.

Definition vec3 : Type := (R * R * R)%type.

(** A 3x3 matrix, stored by rows. *)
Definition mat3 : Type := (vec3 * vec3 * vec3)%type.

Definition vadd (a b : vec3) : vec3 :=
  let '(a0, a1, a2) := a in let '(b0, b1, b2) := b in
  (a0 + b0, a1 + b1, a2 + b2).

Definition vsub (a b : vec3) : vec3 :=
  let '(a0, a1, a2) := a in let '(b0, b1, b2) := b in
  (a0 - b0, a1 - b1, a2 - b2).

Definition vscale (k : R) (a : vec3) : vec3 :=
  let '(a0, a1, a2) := a in (k * a0, k * a1, k * a2).

Definition dot (a b : vec3) : R :=
  let '(a0, a1, a2) := a in let '(b0, b1, b2) := b in
  a0 * b0 + a1 * b1 + a2 * b2.

Definition cross (a b : vec3) : vec3 :=
  let '(a0, a1, a2) := a in let '(b0, b1, b2) := b in
  (a1 * b2 - a2 * b1, a2 * b0 - a0 * b2, a0 * b1 - a1 * b0).

Definition norm (a : vec3) : R := sqrt (dot a a).

Definition transpose (m : mat3) : mat3 :=
  let '((a00, a01, a02), (a10, a11, a12), (a20, a21, a22)) := m in
  ((a00, a10, a20), (a01, a11, a21), (a02, a12, a22)).

(** The matrix whose columns are the three given vectors. *)
Definition of_columns (c0 c1 c2 : vec3) : mat3 := transpose (c0, c1, c2).

Definition mvmul (m : mat3) (x : vec3) : vec3 :=
  let '(r0, r1, r2) := m in (dot r0 x, dot r1 x, dot r2 x).

Definition mmul (a b : mat3) : mat3 :=
  let '(r0, r1, r2) := a in
  let '(c0, c1, c2) := transpose b in
  ((dot r0 c0, dot r0 c1, dot r0 c2),
   (dot r1 c0, dot r1 c1, dot r1 c2),
   (dot r2 c0, dot r2 c1, dot r2 c2)).

Definition identity : mat3 := ((1, 0, 0), (0, 1, 0), (0, 0, 1)).

(** [v[i]]; out of range is an [IndexError], here [None]. *)
Definition vget (v : vec3) (i : nat) : option R :=
  let '(v0, v1, v2) := v in
  match i with
  | 0%nat => Some v0
  | 1%nat => Some v1
  | 2%nat => Some v2
  | _ => None
  end.

(** [m[i, j]]. *)
Definition mget (m : mat3) (i j : nat) : option R :=
  let '(r0, r1, r2) := m in
  match i with
  | 0%nat => vget r0 j
  | 1%nat => vget r1 j
  | 2%nat => vget r2 j
  | _ => None
  end.

Definition orthonormal (m : mat3) : Prop :=
  mmul m (transpose m) = identity /\ mmul (transpose m) m = identity.

(** A 6-element state vector: [x[0:3]] is the position, [x[3:6]] the
    velocity. *)
Record state : Type := mkState { pos : vec3; vel : vec3 }.

Definition components (x : state) : list R :=
  let '(p0, p1, p2) := pos x in
  let '(v0, v1, v2) := vel x in
  [p0; p1; p2; v0; v1; v2].

Definition state_add (x y : state) : state :=
  mkState (vadd (pos x) (pos y)) (vadd (vel x) (vel y)).

(** [approx(a, abs=tol)] compared with [b]: the absolute tolerance test. *)
Definition approx_abs (tol a b : R) : Prop := Rabs (a - b) <= tol.

(** Each actual value against its expected value and tolerance. *)
Definition approx_each (expected : list (R * R)) (actual : list R) : Prop :=
  Forall2 (fun et a => approx_abs (snd et) a (fst et)) expected actual.

(** The entry [m[i, j]] exists and is within 1e-8 of the expected value. *)
Definition entry_approx (m : mat3) (i j : nat) (expected : R) : Prop :=
  exists a, mget m i j = Some a /\ approx_abs 1e-8 a expected.

End Linalg.

(** ** brahe.attitude *)

Module Attitude.
Import Linalg.
Local Open Scope R_scope.

Definition to_radians (angle : R) (use_degrees : bool) : R :=
  if use_degrees then angle * PI / 180 else angle.

(** Modelled from the spec: [brahe/attitude.py] is not among the sources;
    section 4.2 gives the three matrices entry by entry. *)
Definition Rx (angle : R) (use_degrees : bool) : mat3 :=
  let t := to_radians angle use_degrees in
  ((1, 0, 0),
   (0, cos t, sin t),
   (0, - sin t, cos t)).

(** Modelled from the spec: see [Rx]. *)
Definition Ry (angle : R) (use_degrees : bool) : mat3 :=
  let t := to_radians angle use_degrees in
  ((cos t, 0, - sin t),
   (0, 1, 0),
   (sin t, 0, cos t)).

(** Modelled from the spec: see [Rx]. *)
Definition Rz (angle : R) (use_degrees : bool) : mat3 :=
  let t := to_radians angle use_degrees in
  ((cos t, sin t, 0),
   (- sin t, cos t, 0),
   (0, 0, 1)).

End Attitude.

(** ** brahe.relorbits *)

Module Relorbits.
Import Linalg.
Local Open Scope R_scope.
Local Open Scope result_scope.

Definition is_zero (x : R) : bool := if Req_dec_T x 0 then true else false.

(** A chief state is degenerate when its position or its angular momentum
    has zero magnitude: the radial or the normal direction is undefined. *)
Definition degenerate (x : state) : bool :=
  is_zero (norm (pos x)) || is_zero (norm (cross (pos x) (vel x))).

(** Modelled from the spec: [brahe/relorbits.py] is not among the sources.
    Section 4.5: the columns of the matrix are the radial, transverse and
    normal unit vectors; a degenerate chief is a [DomainError]. *)
Definition rRTNtoECI (x : state) : result mat3 :=
  if degenerate x then Raise DomainError
  else
    let r := pos x in
    let v := vel x in
    let R_hat := vscale (/ norm r) r in
    let h := cross r v in
    let N_hat := vscale (/ norm h) h in
    let T_hat := cross N_hat R_hat in
    Ok (of_columns R_hat T_hat N_hat).

(** The radial, transverse and normal unit vectors of a chief, as the rows
    of a matrix. *)
Definition rtn_rows (x : state) : mat3 :=
  let R_hat := vscale (/ norm (pos x)) (pos x) in
  let h := cross (pos x) (vel x) in
  let N_hat := vscale (/ norm h) h in
  (R_hat, cross N_hat R_hat, N_hat).

(** A chief on the x axis at distance [a], moving along y with speed [k]. *)
Definition circular_chief (a k : R) : state := mkState (a, 0, 0) (0, k, 0).

Definition unit_chief : state := circular_chief 1 1.

(** Modelled from the spec: [eci_to_rtn = transpose(rtn_to_eci)]. *)
Definition rECItoRTN (x : state) : result mat3 :=
  m <- rRTNtoECI x ;; Ok (transpose m).

(** The chief's orbital angular velocity, [(r x v) / |r|^2]. *)
Definition omega (x : state) : vec3 :=
  vscale (/ (norm (pos x)) ^ 2) (cross (pos x) (vel x)).

(** Modelled from the spec: the forward relative-state transform of
    section 4.5. *)
Definition sECItoRTN (x xt : state) : result state :=
  rot <- rECItoRTN x ;;
  let dr_rtn := mvmul rot (vsub (pos xt) (pos x)) in
  let dv_rtn := vsub (mvmul rot (vsub (vel xt) (vel x)))
                     (cross (omega x) dr_rtn) in
  Ok (mkState dr_rtn dv_rtn).

(** Modelled from the spec: the inverse transform of section 4.5.  The
    specification writes the two relative vectors and promises the target's
    absolute state back, so the chief's state is added to them. *)
Definition sRTNtoECI (x xrtn : state) : result state :=
  rot <- rRTNtoECI x ;;
  let dr_eci := mvmul rot (pos xrtn) in
  let dv_eci := mvmul rot (vadd (vel xrtn) (cross (omega x) (pos xrtn))) in
  Ok (mkState (vadd (pos x) dr_eci) (vadd (vel x) dv_eci)).

End Relorbits.

(** ** brahe.relorbits in binary64 *)

Module Binary64.
Import PrimFloat.
Local Open Scope float_scope.
Local Open Scope result_scope.

(** The kernel computes on numpy arrays of float64.  Here the formulas of
    section 4.5 are evaluated in binary64: every operation is rounded to
    the nearest float, and the operations are taken in the order in which
    the formulas are written, a dot product from left to right. *)

Definition vec3 : Type := (float * float * float)%type.

(** A 3x3 matrix, stored by rows. *)
Definition mat3 : Type := (vec3 * vec3 * vec3)%type.

Definition vadd (a b : vec3) : vec3 :=
  let '(a0, a1, a2) := a in let '(b0, b1, b2) := b in
  (a0 + b0, a1 + b1, a2 + b2).

Definition vsub (a b : vec3) : vec3 :=
  let '(a0, a1, a2) := a in let '(b0, b1, b2) := b in
  (a0 - b0, a1 - b1, a2 - b2).

(** [a / k], component by component. *)
Definition vdiv (a : vec3) (k : float) : vec3 :=
  let '(a0, a1, a2) := a in (a0 / k, a1 / k, a2 / k).

Definition dot (a b : vec3) : float :=
  let '(a0, a1, a2) := a in let '(b0, b1, b2) := b in
  a0 * b0 + a1 * b1 + a2 * b2.

Definition cross (a b : vec3) : vec3 :=
  let '(a0, a1, a2) := a in let '(b0, b1, b2) := b in
  (a1 * b2 - a2 * b1, a2 * b0 - a0 * b2, a0 * b1 - a1 * b0).

Definition norm (a : vec3) : float := sqrt (dot a a).

Definition transpose (m : mat3) : mat3 :=
  let '((a00, a01, a02), (a10, a11, a12), (a20, a21, a22)) := m in
  ((a00, a10, a20), (a01, a11, a21), (a02, a12, a22)).

Definition of_columns (c0 c1 c2 : vec3) : mat3 := transpose (c0, c1, c2).

Definition mvmul (m : mat3) (x : vec3) : vec3 :=
  let '(r0, r1, r2) := m in (dot r0 x, dot r1 x, dot r2 x).

Record state : Type := mkState { pos : vec3; vel : vec3 }.

Definition components (x : state) : list float :=
  let '(p0, p1, p2) := pos x in
  let '(v0, v1, v2) := vel x in
  [p0; p1; p2; v0; v1; v2].

Definition degenerate (x : state) : bool :=
  (norm (pos x) =? 0) || (norm (cross (pos x) (vel x)) =? 0).

(** Modelled from the spec: [brahe/relorbits.py] is not among the sources.
    Section 4.5, as [Relorbits.rRTNtoECI], in binary64. *)
Definition rRTNtoECI (x : state) : result mat3 :=
  if degenerate x then Raise DomainError
  else
    let r := pos x in
    let v := vel x in
    let R_hat := vdiv r (norm r) in
    let h := cross r v in
    let N_hat := vdiv h (norm h) in
    let T_hat := cross N_hat R_hat in
    Ok (of_columns R_hat T_hat N_hat).

(** Modelled from the spec: [eci_to_rtn = transpose(rtn_to_eci)]. *)
Definition rECItoRTN (x : state) : result mat3 :=
  m <- rRTNtoECI x ;; Ok (transpose m).

(** [(r x v) / |r|^2]. *)
Definition omega (x : state) : vec3 :=
  let n := norm (pos x) in
  vdiv (cross (pos x) (vel x)) (n * n).

(** Modelled from the spec: the forward transform of section 4.5, as
    [Relorbits.sECItoRTN], in binary64. *)
Definition sECItoRTN (x xt : state) : result state :=
  rot <- rECItoRTN x ;;
  let dr_rtn := mvmul rot (vsub (pos xt) (pos x)) in
  let dv_rtn := vsub (mvmul rot (vsub (vel xt) (vel x)))
                     (cross (omega x) dr_rtn) in
  Ok (mkState dr_rtn dv_rtn).

(** Modelled from the spec: the inverse transform of section 4.5, as
    [Relorbits.sRTNtoECI], in binary64. *)
Definition sRTNtoECI (x xrtn : state) : result state :=
  rot <- rRTNtoECI x ;;
  let dr_eci := mvmul rot (pos xrtn) in
  let dv_eci := mvmul rot (vadd (vel xrtn) (cross (omega x) (pos xrtn))) in
  Ok (mkState (vadd (pos x) dr_eci) (vadd (vel x) dv_eci)).

(** The forward transform followed by the inverse one. *)
Definition roundtrip (x xt : state) : result state :=
  xrtn <- sECItoRTN x xt ;; sRTNtoECI x xrtn.

(** The float nearest to 10^-8, which is what the literal [1e-8] denotes. *)
Definition tol : float := 1 / 100000000.

(** [a == approx(b, abs=tol)]. *)
Definition approx_abs (tol a b : float) : bool := abs (a - b) <=? tol.

(** Every component of [x] is within [tol] of that of [y]. *)
Definition all_within (tol : float) (x y : state) : bool :=
  forallb (fun ab => approx_abs tol (fst ab) (snd ab))
    (combine (components x) (components y)).

(** A chief some 330 km above the Earth and a target at the geostationary
    radius, in metres and metres per second. *)
Definition low_chief : state :=
  mkState (0, 6000000, -3000000) (7000, 5000, -4000).

Definition geo_target : state :=
  mkState (42164000, 49000, 49000) (0, 3075, 0).

End Binary64.

(** ** brahe.orbits *)

Module Orbits.
Import Linalg Attitude.
Local Open Scope R_scope.
Local Open Scope result_scope.

(** Osculating elements [a, e, i, RAAN, omega, M]. *)
Record elements : Type := mkElements {
  sma : R;
  ecc : R;
  inc : R;
  raan : R;
  argp : R;
  anm : R
}.

Section Kepler.

(** What the specification leaves open: the gravitational parameter, the
    tolerance and the iteration budget of the Kepler solver, and its
    starting value as a function of the mean anomaly and eccentricity. *)
Variable GM_EARTH : R.
Variable kepler_tol : R.
Variable kepler_max_iter : nat.
Variable kepler_start : R -> R -> R.

(** Newton-Raphson on [f(E) = E - e sin E - M]: stop when the residual is
    within the tolerance, fail once the budget is used up. *)
Fixpoint kepler_newton (budget : nat) (M e E : R) : result R :=
  let f := E - e * sin E - M in
  if Rle_dec (Rabs f) kepler_tol then Ok E
  else
    match budget with
    | O => Raise ConvergenceError
    | S budget' => kepler_newton budget' M e (E - f / (1 - e * cos E))
    end.

(** Modelled from the spec: the Kepler-equation solver of section 4.4. *)
Definition anomaly_mean_to_eccentric (M e : R) : result R :=
  kepler_newton kepler_max_iter M e (kepler_start M e).

(** Modelled from the spec: [brahe/orbits.py] is not among the sources.
    Section 4.4: reject [a <= 0] and [e >= 1], solve Kepler's equation,
    form position and velocity in the perifocal plane (the two-body
    expressions in [E], [e], [a] and [GM]) and rotate them by
    [Rz(-RAAN) Rx(-i) Rz(-omega)]. *)
Definition sOSCtoCART (oe : elements) (use_degrees : bool) : result state :=
  let a := sma oe in
  let e := ecc oe in
  if Rle_dec a 0 then Raise DomainError
  else if Rle_dec 1 e then Raise DomainError
  else
    let i := to_radians (inc oe) use_degrees in
    let Om := to_radians (raan oe) use_degrees in
    let w := to_radians (argp oe) use_degrees in
    let M := to_radians (anm oe) use_degrees in
    E <- anomaly_mean_to_eccentric M e ;;
    let b := sqrt (1 - e * e) in
    let r_pf : vec3 := (a * (cos E - e), a * b * sin E, 0) in
    let k := sqrt (GM_EARTH * a) / (a * (1 - e * cos E)) in
    let v_pf : vec3 := (k * - sin E, k * (b * cos E), 0) in
    let rot := mmul (Rz (- Om) false) (mmul (Rx (- i) false) (Rz (- w) false)) in
    Ok (mkState (mvmul rot r_pf) (mvmul rot v_pf)).

End Kepler.
End Orbits.

(** ** Python's [datetime] and [timedelta], as far as the data models use
    them *)

Module Datetime.
Local Open Scope Z_scope.

(** A naive [datetime.datetime]: the calendar fields it stores.  Python
    builds only dates of the years [MINYEAR] to [MAXYEAR]; the arithmetic
    below checks its results against that range as Python does. *)
Record datetime : Type := mkDatetime {
  year : Z;
  month : Z;
  day : Z;
  hour : Z;
  minute : Z;
  second : Z;
  microsecond : Z
}.

(** A [datetime.timedelta]: a signed count of microseconds. *)
Definition timedelta : Type := Z.

(** Days since 1970-01-01 of a proleptic Gregorian date. *)
Definition days_from_civil (y m d : Z) : Z :=
  let y' := if m <=? 2 then y - 1 else y in
  let era := y' / 400 in
  let yoe := y' - era * 400 in
  let mp := (m + 9) mod 12 in
  let doy := (153 * mp + 2) / 5 + d - 1 in
  let doe := yoe * 365 + yoe / 4 - yoe / 100 + doy in
  era * 146097 + doe - 719468.

(** The date that lies [z] days after 1970-01-01. *)
Definition civil_from_days (z : Z) : Z * Z * Z :=
  let z' := z + 719468 in
  let era := z' / 146097 in
  let doe := z' - era * 146097 in
  let yoe := (doe - doe / 1460 + doe / 36524 - doe / 146096) / 365 in
  let doy := doe - (365 * yoe + yoe / 4 - yoe / 100) in
  let mp := (5 * doy + 2) / 153 in
  let d := doy - (153 * mp + 2) / 5 + 1 in
  let m := if mp <? 10 then mp + 3 else mp - 9 in
  let y := yoe + era * 400 in
  (if m <=? 2 then y + 1 else y, m, d).

Definition us_per_second : Z := 1000000.
Definition us_per_day : Z := 86400 * us_per_second.

(** Microseconds since 1970-01-01T00:00:00. *)
Definition to_us (t : datetime) : Z :=
  (((days_from_civil (year t) (month t) (day t) * 24 + hour t) * 60
    + minute t) * 60 + second t) * us_per_second + microsecond t.

Definition of_us (n : Z) : datetime :=
  let days := n / us_per_day in
  let r := n mod us_per_day in
  let '(y, m, d) := civil_from_days days in
  let s := r / us_per_second in
  mkDatetime y m d (s / 3600) ((s / 60) mod 60) (s mod 60)
             (r mod us_per_second).

Definition MINYEAR : Z := 1.
Definition MAXYEAR : Z := 9999.

(** The date lies in the years the type can hold. *)
Definition in_range (t : datetime) : bool :=
  (MINYEAR <=? year t) && (year t <=? MAXYEAR).

(** The result of datetime arithmetic: an [OverflowError] when it leaves
    the years [MINYEAR] to [MAXYEAR]. *)
Definition checked (t : datetime) : result datetime :=
  if in_range t then Ok t else Raise OverflowError.

(** [t + delta], [t - delta], [t1 - t2] and [t1 <= t2]. *)
Definition dt_add (t : datetime) (delta : timedelta) : result datetime :=
  checked (of_us (to_us t + delta)).

Definition dt_sub_delta (t : datetime) (delta : timedelta)
  : result datetime :=
  checked (of_us (to_us t - delta)).

(** The difference of two dates of the type always fits a [timedelta]. *)
Definition dt_diff (t1 t2 : datetime) : timedelta := to_us t1 - to_us t2.

Definition dt_leb (t1 t2 : datetime) : bool := to_us t1 <=? to_us t2.

(** Division rounding to the nearest integer, ties to even, for a positive
    divisor: the rounding of [timedelta] arithmetic. *)
Definition divide_and_round (a b : Z) : Z :=
  let q := a / b in
  let r := 2 * (a mod b) in
  if (b <? r) || ((r =? b) && Z.odd q) then q + 1 else q.

(** The number of microseconds nearest to [s] seconds, ties to even: what
    [timedelta(seconds=s)] holds when it is computed without rounding error.
    CPython multiplies the fractional part of the float by 1e6 in binary64
    before it rounds, so its result can differ from this one by a
    microsecond when [s] lies within a rounding error of a half
    microsecond. *)
Definition timedelta_of_seconds (s : Q) : timedelta :=
  divide_and_round (Qnum s * us_per_second) (Zpos (Qden s)).

(** A [timedelta] holds at most 999999999 days, either way. *)
Definition MAX_DELTA_DAYS : Z := 999999999.

Definition delta_in_range (delta : timedelta) : bool :=
  (- MAX_DELTA_DAYS <=? delta / us_per_day)
  && (delta / us_per_day <=? MAX_DELTA_DAYS).

(** [timedelta(seconds=s)], in exact arithmetic: an [OverflowError] beyond
    [MAX_DELTA_DAYS]. *)
Definition timedelta_seconds (s : Q) : result timedelta :=
  let delta := timedelta_of_seconds s in
  if delta_in_range delta then Ok delta else Raise OverflowError.

(** [delta.total_seconds()], in exact arithmetic: the quotient of the
    microseconds by 10^6.  Python returns the binary64 number nearest to
    it, which is a different number for most long intervals. *)
Definition total_seconds (delta : timedelta) : Q :=
  Qmake delta 1000000.

(** [delta / 2.0]. *)
Definition td_half (delta : timedelta) : timedelta :=
  divide_and_round delta 2.

(** *** [strftime] *)

Definition digit (d : Z) : ascii := ascii_of_nat (48 + Z.to_nat (d mod 10)).

(** The last [width] decimal digits of [n], most significant first. *)
Fixpoint zpad (width : nat) (n : Z) : string :=
  match width with
  | O => EmptyString
  | S w => String (digit (n / 10 ^ Z.of_nat w)) (zpad w n)
  end.

(** The directives used by the data models; any other character is copied.
    Every field is written with its fixed number of digits, as Python does
    for the years 1000 to 9999. *)
Fixpoint strftime (fmt : string) (t : datetime) : string :=
  match fmt with
  | EmptyString => EmptyString
  | String "%"%char (String c rest) =>
      let field :=
        if Ascii.eqb c "Y" then zpad 4 (year t)
        else if Ascii.eqb c "m" then zpad 2 (month t)
        else if Ascii.eqb c "d" then zpad 2 (day t)
        else if Ascii.eqb c "H" then zpad 2 (hour t)
        else if Ascii.eqb c "M" then zpad 2 (minute t)
        else if Ascii.eqb c "S" then zpad 2 (second t)
        else if Ascii.eqb c "f" then zpad 6 (microsecond t)
        else String "%"%char (String c EmptyString) in
      append field (strftime rest t)
  | String c rest => String c (strftime rest t)
  end.

(** The slice [s[:-k]]. *)
Definition drop_last (k : nat) (s : string) : string :=
  substring 0 (String.length s - k) s.

Definition noon : datetime := mkDatetime 2018 1 1 12 0 0 0.
Definition one_pm : datetime := mkDatetime 2018 1 1 13 0 0 0.

End Datetime.

(** ** brahe.data_models.earth_observation *)

Module EarthObservation.
Import Datetime.
Local Open Scope Q_scope.
Local Open Scope string_scope.
Local Open Scope result_scope.

(** *** Truthiness of the values the validators test with [not] and [and] *)

(** A float is falsy exactly when it is zero. *)
Definition truthy_float (v : option Q) : bool :=
  match v with
  | None => false
  | Some q => negb (Qeq_bool q 0)
  end.

(** A list is falsy exactly when it is empty. *)
Definition truthy_list {A : Type} (v : option (list A)) : bool :=
  match v with
  | None => false
  | Some [] => false
  | Some (_ :: _) => true
  end.

(** *** EOBase.Config *)

(** A numpy array of floats, by its nesting. *)
Inductive ndarray : Type :=
| Scalar (x : Q)
| Axis (items : list ndarray).

(** The values the encoders produce. *)
Inductive json : Type :=
| JNumber (x : Q)
| JString (s : string)
| JList (items : list json).

(** [v.tolist()]. *)
Fixpoint tolist (v : ndarray) : json :=
  match v with
  | Scalar x => JNumber x
  | Axis items => JList (map tolist items)
  end.

(** [lambda v: v.strftime('%Y-%m-%dT%H:%M:%S.%f')[:-3] + 'Z'] *)
Definition encode_datetime (v : datetime) : string :=
  drop_last 3 (strftime "%Y-%m-%dT%H:%M:%S.%f" v) ++ "Z".

(** The objects for which [json_encoders] has an entry, by their type. *)
Inductive encodable : Type :=
| OfDatetime (v : datetime)
| OfNdarray (v : ndarray).

(** [EOBase.Config.json_encoders], looked up by the type of the value. *)
Definition json_encoders (v : encodable) : json :=
  match v with
  | OfDatetime d => JString (encode_datetime d)
  | OfNdarray a => tolist a
  end.

(** The models of the module that derive from [EOBase]; none of them
    overrides [Config], so each serialises with the encoders above. *)
Inductive eo_model : Type :=
| TimeWindowProperties_cls
| AccessConstraints_cls
| AccessProperties_cls
| RequestProperties_cls
| TileProperties_cls
| StationProperties_cls
| Opportunity_cls
| Collect_cls
| Contact_cls.

Definition model_json_encoders (cls : eo_model) : encodable -> json :=
  json_encoders.

(** *** TimeWindowProperties *)

Section TimeWindow.

(** [brahe.epoch.Epoch] is not among the sources: its values, the
    conversion [to_datetime(tsys='UTC')] and the parsing constructor
    [Epoch(s, tsys='UTC')], which can fail, are parameters. *)
Variable Epoch : Type.
Variable epoch_to_datetime : Epoch -> datetime.
Variable epoch_of_str : string -> result Epoch.

(** What a caller may pass for [t_start] and [t_end]. *)
Inductive time_value : Type :=
| VDatetime (d : datetime)
| VEpoch (e : Epoch)
| VStr (s : string).

(** Datetimes and Epochs are always truthy, a string unless it is empty. *)
Definition truthy_time (v : option time_value) : bool :=
  match v with
  | None => false
  | Some (VStr s) => negb (String.eqb s "")
  | Some _ => true
  end.

(** The input dictionary [values], restricted to the keys [set_times]
    reads; [None] is a missing key or an explicit [None]. *)
Record window_input : Type := mkWindowInput {
  in_t_start : option time_value;
  in_t_end : option time_value;
  in_t_duration : option Q
}.

(** The four keys [set_times] writes into [values]; the other keys pass
    through.  The field validator [handle_tzinfo], which runs afterwards,
    leaves these naive datetimes as they are. *)
Record TimeWindowProperties : Type := mkWindow {
  t_start : datetime;
  t_mid : datetime;
  t_end : datetime;
  t_duration : Q
}.

(** The [type(t) == Epoch] / [type(t) == str] conversion chain; a value of
    another type is left as it is.  [None] never reaches the arithmetic
    below, where it would be a [TypeError]. *)
Definition as_datetime (t : option time_value) : result datetime :=
  match t with
  | Some (VEpoch e) => Ok (epoch_to_datetime e)
  | Some (VStr s) => e <- epoch_of_str s ;; Ok (epoch_to_datetime e)
  | Some (VDatetime d) => Ok d
  | None => Raise TypeError
  end.

(** The number in [t_duration]; [None] in its place would be a
    [TypeError] in [timedelta(seconds=...)]. *)
Definition as_seconds (d : option Q) : result Q :=
  match d with
  | Some s => Ok s
  | None => Raise TypeError
  end.

Definition two_needed : exn :=
  ValueError "Two of t_start, t_end, and t_duration must be provided.".

Section Conversions.

(** The two places where [set_times] goes through binary64 arithmetic of
    the standard library: [datetime.timedelta(seconds=x)], which rounds to
    the microsecond and can overflow, and [delta.total_seconds()], which
    rounds to a float.  They are parameters, on the numbers the floats
    denote; the arithmetic on datetimes and [delta / 2.0] are exact. *)
Variable to_timedelta : Q -> result timedelta.
Variable to_seconds : timedelta -> Q.

(** [set_times], over these two conversions. *)
Definition set_times_over (values : window_input)
  : result TimeWindowProperties :=
  let t_start := in_t_start values in
  let t_end := in_t_end values in
  let t_duration := in_t_duration values in
  '(t_start, t_end, t_duration) <-
    (if truthy_time t_start && truthy_time t_end then
       t_start <- as_datetime t_start ;;
       t_end <- as_datetime t_end ;;
       let t_duration := to_seconds (dt_diff t_end t_start) in
       if dt_leb t_end t_start
       then Raise (ValueError "t_end must be after t_start")
       else Ok (t_start, t_end, t_duration)
     else if truthy_time t_start && truthy_float t_duration then
       t_start <- as_datetime t_start ;;
       t_duration <- as_seconds t_duration ;;
       delta <- to_timedelta t_duration ;;
       t_end <- dt_add t_start delta ;;
       Ok (t_start, t_end, t_duration)
     else if truthy_time t_end && truthy_float t_duration then
       t_end <- as_datetime t_end ;;
       t_duration <- as_seconds t_duration ;;
       delta <- to_timedelta t_duration ;;
       t_start <- dt_sub_delta t_end delta ;;
       Ok (t_start, t_end, t_duration)
     else Raise two_needed) ;;
  delta <- to_timedelta t_duration ;;
  t_mid <- dt_add t_start (td_half delta) ;;
  Ok (mkWindow t_start t_mid t_end t_duration).

End Conversions.

(** [set_times] with the two conversions computed in exact arithmetic. *)
Definition set_times (values : window_input) : result TimeWindowProperties :=
  set_times_over timedelta_seconds total_seconds values.

(** How many of [t_start], [t_end], [t_duration] are supplied, that is,
    truthy. *)
Definition supplied_count (values : window_input) : nat :=
  Nat.b2n (truthy_time (in_t_start values))
  + Nat.b2n (truthy_time (in_t_end values))
  + Nat.b2n (truthy_float (in_t_duration values)).

(** [t_start] plus half of [t_duration], in exact arithmetic. *)
Definition mid_time (start : datetime) (duration : Q) : result datetime :=
  delta <- timedelta_seconds duration ;;
  dt_add start (td_half delta).

End TimeWindow.

(** *** Pydantic's field pass *)

(** The outcome of building a model: the object, or a [ValidationError]
    (a [ValueError]) listing the failed fields. *)
Inductive validation (A : Type) : Type :=
| Valid (obj : A)
| ValidationError (errors : list (string * exn)).
Arguments Valid {A} obj.
Arguments ValidationError {A} errors.

(** A field that was not supplied takes its default without validation;
    a supplied one goes through its validators. *)
Definition field {I A : Type} (supplied : option I) (default : A)
  (validate : I -> result A) : result A :=
  match supplied with
  | None => Ok default
  | Some v => validate v
  end.

(** A field without default. *)
Definition required_field {I A : Type} (supplied : option I)
  (validate : I -> result A) : result A :=
  match supplied with
  | None => Raise (ValueError "field required")
  | Some v => validate v
  end.

(** [values.get(name)] for an earlier field: present only if it passed. *)
Definition known {A : Type} (r : result A) : option A :=
  match r with
  | Ok v => Some v
  | Raise _ => None
  end.

Definition errors_of {A : Type} (name : string) (r : result A)
  : list (string * exn) :=
  match r with
  | Ok _ => []
  | Raise e => [(name, e)]
  end.

(** [pydantic.confloat(ge=lo, le=hi)]. *)
Definition confloat (lo hi v : Q) : result Q :=
  if negb (Qle_bool lo v)
  then Raise (ValueError "ensure this value is greater than or equal to the bound")
  else if negb (Qle_bool v hi)
  then Raise (ValueError "ensure this value is less than or equal to the bound")
  else Ok v.

(** [pydantic.conlist(float, min_items=lo, max_items=hi)]. *)
Definition conlist (lo hi : nat) (v : list Q) : result (list Q) :=
  if (List.length v <? lo)%nat
  then Raise (ValueError "ensure this value has at least the minimum number of items")
  else if (hi <? List.length v)%nat
  then Raise (ValueError "ensure this value has at most the maximum number of items")
  else Ok v.

(** *** Types *)

Inductive AscendingDescending : Type := ascending | descending | either.

Inductive LookDirection : Type := left | right | look_either.

(** An enumeration field takes the member with the given value; for any
    other value pydantic reports a type error ([type_error.enum]). *)
Definition AscendingDescending_of (s : string) : result AscendingDescending :=
  if String.eqb s "ascending" then Ok ascending
  else if String.eqb s "descending" then Ok descending
  else if String.eqb s "either" then Ok either
  else Raise TypeError.

Definition LookDirection_of (s : string) : result LookDirection :=
  if String.eqb s "left" then Ok left
  else if String.eqb s "right" then Ok right
  else if String.eqb s "either" then Ok look_either
  else Raise TypeError.

(** *** AccessConstraints *)

Record AccessConstraints : Type := mkAccessConstraints {
  ascdsc : AscendingDescending;
  look_direction : LookDirection;
  look_angle_min : Q;
  look_angle_max : Q;
  elevation_min : Q;
  elevation_max : Q
}.

(** The keyword arguments of [AccessConstraints(...)]; [None] is an
    argument that was not passed. *)
Record constraints_input : Type := mkConstraintsInput {
  in_ascdsc : option string;
  in_look_direction : option string;
  in_look_angle_min : option Q;
  in_look_angle_max : option Q;
  in_elevation_min : option Q;
  in_elevation_max : option Q
}.

Definition validate_look_angle (look_angle_max : Q)
  (look_angle_min : option Q) : result Q :=
  match look_angle_min with
  | Some m =>
      if Qeq_bool m 0 || negb (Qle_bool m look_angle_max)
      then Raise (ValueError "Minimum look angle constraint must be less than the maximum constraint.")
      else Ok look_angle_max
  | None =>
      Raise (ValueError "Minimum look angle constraint must be less than the maximum constraint.")
  end.

Definition validate_elevation (elevation_max : Q)
  (elevation_min : option Q) : result Q :=
  match elevation_min with
  | Some m =>
      if Qeq_bool m 0 || negb (Qle_bool m elevation_max)
      then Raise (ValueError "Minimum elevation constraint must be less than the maximum constraint.")
      else Ok elevation_max
  | None =>
      Raise (ValueError "Minimum elevation constraint must be less than the maximum constraint.")
  end.

(** Building an [AccessConstraints]: the fields in declaration order, each
    validator seeing the earlier fields that passed. *)
Definition AccessConstraints_init (kw : constraints_input)
  : validation AccessConstraints :=
  let f_ascdsc := field (in_ascdsc kw) either AscendingDescending_of in
  let f_look_direction :=
    field (in_look_direction kw) look_either LookDirection_of in
  let f_look_angle_min := field (in_look_angle_min kw) 0 (confloat 0 90) in
  let f_look_angle_max :=
    field (in_look_angle_max kw) 90
      (fun v => v <- confloat 0 90 v ;;
                validate_look_angle v (known f_look_angle_min)) in
  let f_elevation_min := field (in_elevation_min kw) 0 (confloat 0 90) in
  let f_elevation_max :=
    field (in_elevation_max kw) 90
      (fun v => v <- confloat 0 90 v ;;
                validate_elevation v (known f_elevation_min)) in
  match f_ascdsc, f_look_direction, f_look_angle_min, f_look_angle_max,
        f_elevation_min, f_elevation_max with
  | Ok a, Ok d, Ok lmin, Ok lmax, Ok emin, Ok emax =>
      Valid (mkAccessConstraints a d lmin lmax emin emax)
  | _, _, _, _, _, _ =>
      ValidationError
        (errors_of "ascdsc" f_ascdsc
         ++ errors_of "look_direction" f_look_direction
         ++ errors_of "look_angle_min" f_look_angle_min
         ++ errors_of "look_angle_max" f_look_angle_max
         ++ errors_of "elevation_min" f_elevation_min
         ++ errors_of "elevation_max" f_elevation_max)
  end.

(** The value a field has when an argument was or was not passed. *)
Definition effective (supplied : option Q) (default : Q) : Q :=
  match supplied with
  | Some v => v
  | None => default
  end.

(** The two shapes of field in [AccessConstraints_init]: a minimum, and a
    maximum whose validator reads the minimum. *)
Definition min_field (supplied : option Q) : result Q :=
  field supplied 0 (confloat 0 90).

Definition max_field (supplied : option Q)
  (validator : Q -> option Q -> result Q) (minimum : result Q) : result Q :=
  field supplied 90
    (fun v => v <- confloat 0 90 v ;; validator v (known minimum)).

(** What a validator of a maximum guarantees when it accepts: the minimum
    is present, non-zero and not above the maximum, which is returned. *)
Definition accepts_checked (validator : Q -> option Q -> result Q) : Prop :=
  forall a b c, validator a b = Ok c ->
    exists m, b = Some m /\ c = a /\ Qeq_bool m 0 = false /\ Qle_bool m a = true.

(** A validator of a maximum rejects with a [ValueError] only. *)
Definition rejects_with_value_error
  (validator : Q -> option Q -> result Q) : Prop :=
  forall a b e, validator a b = Raise e -> exists msg, e = ValueError msg.

(** *** Collect and Contact *)

(** The geodetic point handed to the conversion, in the words of the
    specification: a two-element point gets altitude 0. *)
Definition with_altitude (center : list Q) : list Q :=
  match center with
  | [lat; lon] => [lat; lon; 0]
  | _ => center
  end.


Section CenterEcef.

(** [brahe.coordinates.sGEODtoECEF] is not among the sources: it is a
    parameter, taking the geodetic point and the [use_degrees] flag and
    returning the three Earth-fixed coordinates. *)
Variable sGEODtoECEF : list Q -> bool -> Q * Q * Q.

(** [ecef.tolist()] of the returned 3-vector. *)
Definition vec_tolist (v : Q * Q * Q) : list Q :=
  let '(x, y, z) := v in [x; y; z].

(** [values['center']]. *)
Definition values_center (center : option (list Q)) : result (list Q) :=
  match center with
  | Some c => Ok c
  | None => Raise (KeyError "center")
  end.

Definition Collect_set_center_ecef (center_ecef : option (list Q))
  (values : option (list Q)) : result (list Q) :=
  match center_ecef with
  | Some (x :: rest) => Ok (x :: rest)
  | _ =>
      center <- values_center values ;;
      let center :=
        if (List.length center =? 2)%nat
        then [nth 0 center 0; nth 1 center 0; 0]
        else center in
      let ecef := sGEODtoECEF center true in
      Ok (vec_tolist ecef)
  end.

Definition Contact_set_center_ecef (center_ecef : option (list Q))
  (values : option (list Q)) : result (list Q) :=
  match center_ecef with
  | Some (x :: rest) => Ok (x :: rest)
  | _ =>
      center <- values_center values ;;
      let center :=
        if (List.length center =? 2)%nat
        then [nth 0 center 0; nth 1 center 0; 0]
        else center in
      let ecef := sGEODtoECEF center true in
      Ok (vec_tolist ecef)
  end.

(** The two fields [center] and [center_ecef] of a [Collect], in
    declaration order: [center] is required and has 2 or 3 items; the
    [pre=True, always=True] validator runs on the raw [center_ecef], and
    its result must have exactly 3 items. *)
Definition Collect_center_ecef (center center_ecef : option (list Q))
  : result (list Q) :=
  let f_center := required_field center (conlist 2 3) in
  v <- Collect_set_center_ecef center_ecef (known f_center) ;;
  conlist 3 3 v.

(** The same two fields of a [Contact]. *)
Definition Contact_center_ecef (center center_ecef : option (list Q))
  : result (list Q) :=
  let f_center := required_field center (conlist 2 3) in
  v <- Contact_set_center_ecef center_ecef (known f_center) ;;
  conlist 3 3 v.

End CenterEcef.
End EarthObservation.

(** ** The enumerations and their values *)

Module Enums.
Import EarthObservation.
Local Open Scope string_scope.

(** [ScheduleStatus]. *)
Inductive ScheduleStatus : Type := not_scheduled | scheduled.

Definition ScheduleStatus_of (s : string) : result ScheduleStatus :=
  if String.eqb s "not_scheduled" then Ok not_scheduled
  else if String.eqb s "scheduled" then Ok scheduled
  else Raise TypeError.

(** The [value] of each member. *)
Definition ScheduleStatus_value (m : ScheduleStatus) : string :=
  match m with
  | not_scheduled => "not_scheduled"
  | scheduled => "scheduled"
  end.

Definition AscendingDescending_value (m : AscendingDescending) : string :=
  match m with
  | ascending => "ascending"
  | descending => "descending"
  | either => "either"
  end.

Definition LookDirection_value (m : LookDirection) : string :=
  match m with
  | left => "left"
  | right => "right"
  | look_either => "either"
  end.

End Enums.

(** ** Acceptance criteria and derived inputs, for the properties below *)

Module Criteria.
Import Datetime EarthObservation.
Local Open Scope Q_scope.
Local Open Scope string_scope.

(** An angle passes [confloat(ge=0.0, le=90.0)]. *)
Definition in_rangeb (v : Q) : bool := Qle_bool 0 v && Qle_bool v 90.

(** A minimum/maximum pair is accepted: what was passed is in range, and a
    passed maximum needs a non-zero minimum (passed or default) that is not
    above it. *)
Definition pair_acceptedb (minimum maximum : option Q) : bool :=
  match minimum with
  | Some m => in_rangeb m
  | None => true
  end
  && match maximum with
     | Some x =>
         in_rangeb x && negb (Qeq_bool (effective minimum 0) 0)
         && Qle_bool (effective minimum 0) x
     | None => true
     end.

Definition ascdsc_of (s : option string) : option AscendingDescending :=
  match s with
  | None => Some either
  | Some v => known (AscendingDescending_of v)
  end.

Definition look_direction_of (s : option string) : option LookDirection :=
  match s with
  | None => Some look_either
  | Some v => known (LookDirection_of v)
  end.

(** The object a set of accepted arguments builds: each field is the
    argument, or the default where none was passed. *)
Definition constraints_of (kw : constraints_input) : option AccessConstraints :=
  match ascdsc_of (in_ascdsc kw), look_direction_of (in_look_direction kw) with
  | Some a, Some d =>
      if pair_acceptedb (in_look_angle_min kw) (in_look_angle_max kw)
         && pair_acceptedb (in_elevation_min kw) (in_elevation_max kw)
      then Some (mkAccessConstraints a d
                   (effective (in_look_angle_min kw) 0)
                   (effective (in_look_angle_max kw) 90)
                   (effective (in_elevation_min kw) 0)
                   (effective (in_elevation_max kw) 90))
      else None
  | _, _ => None
  end.

Definition name_if {A : Type} (argument : option A) (name : string)
  : list string :=
  match argument with
  | Some _ => [name]
  | None => []
  end.

(** The names of the arguments that were passed, in declaration order. *)
Definition passed (kw : constraints_input) : list string :=
  name_if (in_ascdsc kw) "ascdsc"
  ++ name_if (in_look_direction kw) "look_direction"
  ++ name_if (in_look_angle_min kw) "look_angle_min"
  ++ name_if (in_look_angle_max kw) "look_angle_max"
  ++ name_if (in_elevation_min kw) "elevation_min"
  ++ name_if (in_elevation_max kw) "elevation_max".

(** The kind of error a field of [AccessConstraints] is reported with: a
    type error for the two enumerations, a [ValueError] for the angles. *)
Definition field_error (name : string) (e : exn) : Prop :=
  if String.eqb name "ascdsc" || String.eqb name "look_direction"
  then e = TypeError
  else exists msg, e = ValueError msg.

(** [center] passed its own validation: it is present with 2 or 3 items. *)
Definition center_valid (center : option (list Q)) : bool :=
  match center with
  | Some c => (2 <=? List.length c)%nat && (List.length c <=? 3)%nat
  | None => false
  end.

(** The window as a caller would pass it back: the three keys [set_times]
    reads, taken from a constructed object. *)
Definition window_as_input (Epoch : Type) (w : TimeWindowProperties)
  : window_input Epoch :=
  mkWindowInput Epoch (Some (VDatetime Epoch (t_start w)))
    (Some (VDatetime Epoch (t_end w))) (Some (t_duration w)).

(** The same input with another [t_duration]. *)
Definition with_duration {Epoch : Type} (values : window_input Epoch)
  (d : option Q) : window_input Epoch :=
  mkWindowInput Epoch (in_t_start _ values) (in_t_end _ values) d.

Section Built.

Variable Epoch : Type.
Variable epoch_to_datetime : Epoch -> datetime.
Variable epoch_of_str : string -> result Epoch.

(** The three ways in which [set_times] returns. *)
Inductive built (values : window_input Epoch) (w : TimeWindowProperties)
  : Prop :=
| from_start_end (start stop mid : datetime) :
    truthy_time Epoch (in_t_start Epoch values) = true ->
    truthy_time Epoch (in_t_end Epoch values) = true ->
    as_datetime Epoch epoch_to_datetime epoch_of_str
      (in_t_start Epoch values) = Ok start ->
    as_datetime Epoch epoch_to_datetime epoch_of_str
      (in_t_end Epoch values) = Ok stop ->
    dt_leb stop start = false ->
    mid_time start (total_seconds (dt_diff stop start)) = Ok mid ->
    w = mkWindow start mid stop (total_seconds (dt_diff stop start)) ->
    built values w
| from_start_duration (start stop mid : datetime) (d : Q) :
    truthy_time Epoch (in_t_start Epoch values) = true ->
    truthy_time Epoch (in_t_end Epoch values) = false ->
    in_t_duration Epoch values = Some d ->
    truthy_float (Some d) = true ->
    as_datetime Epoch epoch_to_datetime epoch_of_str
      (in_t_start Epoch values) = Ok start ->
    delta_in_range (timedelta_of_seconds d) = true ->
    dt_add start (timedelta_of_seconds d) = Ok stop ->
    dt_add start (td_half (timedelta_of_seconds d)) = Ok mid ->
    w = mkWindow start mid stop d ->
    built values w
| from_end_duration (start stop mid : datetime) (d : Q) :
    truthy_time Epoch (in_t_start Epoch values) = false ->
    truthy_time Epoch (in_t_end Epoch values) = true ->
    in_t_duration Epoch values = Some d ->
    truthy_float (Some d) = true ->
    as_datetime Epoch epoch_to_datetime epoch_of_str
      (in_t_end Epoch values) = Ok stop ->
    delta_in_range (timedelta_of_seconds d) = true ->
    dt_sub_delta stop (timedelta_of_seconds d) = Ok start ->
    dt_add start (td_half (timedelta_of_seconds d)) = Ok mid ->
    w = mkWindow start mid stop d ->
    built values w.

End Built.

End Criteria.

(** ** Identifiers: [StrUUID4] and the [set_id] validators *)

Module Identifiers.
Import EarthObservation.
Local Open Scope string_scope.
Local Open Scope result_scope.

(** *** The string methods [uuid.UUID] applies to its argument *)

(** [s.replace(old, '')] for a non-empty [old]: occurrences are found from
    the left and do not overlap; [skip] counts the characters of a found
    occurrence still to be dropped. *)
Fixpoint remove_from (old : string) (skip : nat) (s : string) : string :=
  match s with
  | EmptyString => EmptyString
  | String c rest =>
      match skip with
      | S k => remove_from old k rest
      | O =>
          if prefix old s
          then remove_from old (String.length old - 1) rest
          else String c (remove_from old 0 rest)
      end
  end.

Definition remove_all (old s : string) : string := remove_from old 0 s.

Fixpoint mem (c : ascii) (chars : string) : bool :=
  match chars with
  | EmptyString => false
  | String c' rest => Ascii.eqb c c' || mem c rest
  end.

Fixpoint lstrip (chars s : string) : string :=
  match s with
  | EmptyString => EmptyString
  | String c rest => if mem c chars then lstrip chars rest else s
  end.

Fixpoint rstrip (chars s : string) : string :=
  match s with
  | EmptyString => EmptyString
  | String c rest =>
      match rstrip chars rest with
      | EmptyString => if mem c chars then EmptyString else String c EmptyString
      | kept => String c kept
      end
  end.

(** [s.strip(chars)]. *)
Definition strip (chars s : string) : string := rstrip chars (lstrip chars s).

(** [hex.replace('urn:', '').replace('uuid:', '')], then
    [hex.strip('{}').replace('-', '')]. *)
Definition clean (hex : string) : string :=
  remove_all "-" (strip "{}" (remove_all "uuid:" (remove_all "urn:" hex))).

(** *** The 128-bit value and its text *)

Definition hexdigit (d : Z) : ascii :=
  let d := (d mod 16)%Z in
  ascii_of_nat (Z.to_nat (if (d <? 10)%Z then 48 + d else 87 + d)%Z).

(** ['%0<width>x' % n] for [0 <= n < 16 ^ width]. *)
Fixpoint hexpad (width : nat) (n : Z) : string :=
  match width with
  | O => EmptyString
  | S w => String (hexdigit (n / 16 ^ Z.of_nat w)) (hexpad w n)
  end.

(** The variant and version bits, as [UUID.__init__] sets them for a given
    [version]. *)
Definition set_version (version n : Z) : Z :=
  let n := Z.land n (Z.lnot (Z.shiftl 0xc000 48)) in
  let n := Z.lor n (Z.shiftl 0x8000 48) in
  let n := Z.land n (Z.lnot (Z.shiftl 0xf000 64)) in
  Z.lor n (Z.shiftl version 76).

(** [str(u)] for the UUID with integer value [n]. *)
Definition uuid_str (n : Z) : string :=
  let hex := hexpad 32 n in
  substring 0 8 hex ++ "-" ++ substring 8 4 hex ++ "-" ++ substring 12 4 hex
  ++ "-" ++ substring 16 4 hex ++ "-" ++ substring 20 12 hex.

(** The digits-only part of [int(s, 16)]: the value of a string of
    hexadecimal digits of either case. *)
Definition digit_value (c : ascii) : option Z :=
  let n := Z.of_nat (nat_of_ascii c) in
  if (48 <=? n)%Z && (n <=? 57)%Z then Some (n - 48)%Z
  else if (97 <=? n)%Z && (n <=? 102)%Z then Some (n - 87)%Z
  else if (65 <=? n)%Z && (n <=? 70)%Z then Some (n - 55)%Z
  else None.

Fixpoint hex_value_from (acc : Z) (s : string) : option Z :=
  match s with
  | EmptyString => Some acc
  | String c rest =>
      match digit_value c with
      | Some d => hex_value_from (16 * acc + d) rest
      | None => None
      end
  end.

Definition hex_value (s : string) : option Z :=
  match s with
  | EmptyString => None
  | _ => hex_value_from 0 s
  end.

Section Validate.

(** [int(hex, 16)] on the cleaned string: [None] stands for its
    [ValueError].  Python's integer syntax (sign, prefix, underscores,
    surrounding blanks) is left to this parameter. *)
Variable int16 : string -> option Z.

(** [uuid.UUID(hex, version=version).int]. *)
Definition UUID (hex : string) (version : Z) : result Z :=
  let hex := clean hex in
  if negb (String.length hex =? 32)%nat
  then Raise (ValueError "badly formed hexadecimal UUID string")
  else
    match int16 hex with
    | None => Raise (ValueError "invalid literal for int() with base 16")
    | Some n =>
        if negb ((0 <=? n)%Z && (n <? 2 ^ 128)%Z)
        then Raise (ValueError "int is out of range (need a 128-bit value)")
        else if negb ((1 <=? version)%Z && (version <=? 5)%Z)
        then Raise (ValueError "illegal version number")
        else Ok (set_version version n)
    end.

(** What a validator of a [StrUUID4] field receives: a string, or a value
    of another type, of which only its rendering in the message matters. *)
Inductive raw : Type :=
| RStr (s : string)
| ROther (rendering : string).

Definition rendering (v : raw) : string :=
  match v with
  | RStr s => s
  | ROther r => r
  end.

Definition quote : string := String (ascii_of_nat 34) EmptyString.

Definition not_uuid4 (v : raw) : exn :=
  ValueError (quote ++ rendering v ++ quote
              ++ " is not a valid UUID4 formatted string").

(** [StrUUID4.validate]: both [raise] statements end in the same
    [ValueError]. *)
Definition StrUUID4_validate (v : raw) : result string :=
  let attempt :=
    match v with
    | RStr s => n <- UUID s 4 ;; Ok (uuid_str n)
    | ROther _ => Raise (not_uuid4 v)
    end in
  match attempt with
  | Ok out => Ok out
  | Raise (ValueError _) => Raise (not_uuid4 v)
  | Raise e => Raise e
  end.

(** [set_id] of [RequestProperties], [TileProperties], [StationProperties]
    and [Opportunity]: a missing or empty id becomes [str(uuid.uuid4())],
    here the argument [generated]. *)
Definition set_id (generated : string) (id : option string) : string :=
  match id with
  | None => generated
  | Some s => if String.eqb s "" then generated else s
  end.

(** The [id] field: [set_id] runs first ([pre=True, always=True]), then the
    type's validator. *)
Definition id_field (generated : string) (id : option string)
  : result string :=
  StrUUID4_validate (RStr (set_id generated id)).

(** [StationProperties.station_name], declared [StrUUID4] with default
    ['']. *)
Definition station_name_field (supplied : option raw) : result string :=
  field supplied "" StrUUID4_validate.

End Validate.

(** Whether a string has the canonical form of a version-4 UUID:
    [xxxxxxxx-xxxx-4xxx-yxxx-xxxxxxxxxxxx], lower-case hexadecimal, [y] one
    of 8, 9, a, b. *)
Definition is_lower_hex (c : ascii) : bool := mem c "0123456789abcdef".

Fixpoint canonical_from (pos : nat) (s : string) : bool :=
  match s with
  | EmptyString => (pos =? 36)%nat
  | String c rest =>
      (if (pos =? 8)%nat || (pos =? 13)%nat || (pos =? 18)%nat
          || (pos =? 23)%nat
       then Ascii.eqb c "-"
       else if (pos =? 14)%nat then Ascii.eqb c "4"
       else if (pos =? 19)%nat then mem c "89ab"
       else is_lower_hex c)
      && canonical_from (S pos) rest
  end.

Definition is_canonical_uuid4 (s : string) : bool := canonical_from 0 s.

(** The hexadecimal digit of [n] at bit [4 * k]. *)
Definition nibble (n : Z) (k : nat) : Z :=
  ((n / 16 ^ Z.of_nat k) mod 16)%Z.

(** No character of [s] is one of [chars]. *)
Fixpoint none_in (chars s : string) : bool :=
  match s with
  | EmptyString => true
  | String c rest => negb (mem c chars) && none_in chars rest
  end.

End Identifiers.

(** * Properties *)

(** ** Vectors and matrices *)

Module LinalgFacts.
Import Linalg.
Local Open Scope R_scope.

Ltac tuple_eq :=
  repeat match goal with |- (_, _) = (_, _) => apply f_equal2 end.

Lemma dot_self_nonneg (a : vec3) : 0 <= dot a a.
Proof. destruct a as [[a0 a1] a2]; simpl; nra. Qed.

Lemma norm_square (a : vec3) : norm a * norm a = dot a a.
Proof. unfold norm. apply sqrt_sqrt, dot_self_nonneg. Qed.

Lemma dot_vscale (k l : R) (a b : vec3) :
  dot (vscale k a) (vscale l b) = k * l * dot a b.
Proof. destruct a as [[a0 a1] a2], b as [[b0 b1] b2]; simpl; ring. Qed.

Lemma dot_cross_left (a b : vec3) : dot a (cross a b) = 0.
Proof. destruct a as [[a0 a1] a2], b as [[b0 b1] b2]; simpl; ring. Qed.

Lemma unit_vscale (a : vec3) :
  norm a <> 0 -> dot (vscale (/ norm a) a) (vscale (/ norm a) a) = 1.
Proof. intros H. rewrite dot_vscale, <- norm_square. now field. Qed.

(** Two orthogonal unit vectors [a], [b] and [cross b a]: the matrix with
    these rows has orthonormal rows and orthonormal columns. *)
Lemma triad_rows (a b : vec3) :
  dot a a = 1 -> dot b b = 1 -> dot a b = 0 ->
  mmul (a, cross b a, b) (transpose (a, cross b a, b)) = identity.
Proof.
  destruct a as [[a0 a1] a2], b as [[b0 b1] b2]; simpl.
  intros Ha Hb Hab. unfold identity. tuple_eq; nsatz.
Qed.

Lemma triad_columns (a b : vec3) :
  dot a a = 1 -> dot b b = 1 -> dot a b = 0 ->
  mmul (transpose (a, cross b a, b)) (a, cross b a, b) = identity.
Proof.
  destruct a as [[a0 a1] a2], b as [[b0 b1] b2]; simpl.
  intros Ha Hb Hab. unfold identity. tuple_eq; nsatz.
Qed.

Lemma transpose_involutive (m : mat3) : transpose (transpose m) = m.
Proof. destruct m as [[[[a b] c] [[d e] f]] [[g h] i]]. reflexivity. Qed.

Lemma orthonormal_transpose (m : mat3) :
  orthonormal m -> orthonormal (transpose m).
Proof. intros [H1 H2]. split; rewrite transpose_involutive; assumption. Qed.

Lemma mvmul_mmul (a b : mat3) (x : vec3) :
  mvmul a (mvmul b x) = mvmul (mmul a b) x.
Proof.
  destruct a as [[[[a00 a01] a02] [[a10 a11] a12]] [[a20 a21] a22]].
  destruct b as [[[[b00 b01] b02] [[b10 b11] b12]] [[b20 b21] b22]].
  destruct x as [[x0 x1] x2]. simpl. tuple_eq; ring.
Qed.

Lemma mvmul_identity (x : vec3) : mvmul identity x = x.
Proof. destruct x as [[x0 x1] x2]. simpl. tuple_eq; ring. Qed.

Lemma vsub_vadd_cancel (p q : vec3) : vadd (vsub p q) q = p.
Proof.
  destruct p as [[p0 p1] p2], q as [[q0 q1] q2]. simpl. tuple_eq; ring.
Qed.

Lemma vadd_vsub_cancel (p q : vec3) : vadd q (vsub p q) = p.
Proof.
  destruct p as [[p0 p1] p2], q as [[q0 q1] q2]. simpl. tuple_eq; ring.
Qed.

Lemma norm_axis_x (a : R) : 0 <= a -> norm (a, 0, 0) = a.
Proof.
  intros H. unfold norm, dot.
  replace (a * a + 0 * 0 + 0 * 0) with (a * a) by ring. now apply sqrt_square.
Qed.

Lemma norm_axis_z (c : R) : 0 <= c -> norm (0, 0, c) = c.
Proof.
  intros H. unfold norm, dot.
  replace (0 * 0 + 0 * 0 + c * c) with (c * c) by ring. now apply sqrt_square.
Qed.

Lemma approx_abs_refl (tol a : R) : 0 <= tol -> approx_abs tol a a.
Proof.
  intros H. unfold approx_abs. rewrite Rminus_diag, Rabs_R0. exact H.
Qed.

Lemma components_approx_refl (tol : R) (x : state) :
  0 <= tol -> Forall2 (approx_abs tol) (components x) (components x).
Proof.
  intros H. unfold components.
  destruct (pos x) as [[p0 p1] p2], (vel x) as [[v0 v1] v2].
  repeat (apply Forall2_cons; [now apply approx_abs_refl|]). apply Forall2_nil.
Qed.

Lemma entry_approx_exact (m : mat3) (i j : nat) (a : R) :
  mget m i j = Some a -> entry_approx m i j a.
Proof. intros H. exists a. split; [exact H | apply approx_abs_refl; lra]. Qed.

End LinalgFacts.

(** ** Elementary rotations *)

Module AttitudeFacts.
Import Linalg Attitude LinalgFacts.
Local Open Scope R_scope.

Lemma sin_45_pos : 0 < sin (45 * PI / 180).
Proof. pose proof PI_RGT_0. apply sin_gt_0; lra. Qed.

(** C3: with [use_degrees] set and the angle 45, [Rx] has first row and
    first column (1, 0, 0) and the entries [R[1,1] = cos], [R[1,2] = +sin],
    [R[2,1] = -sin], [R[2,2] = cos] of the angle in radians; [Ry] has
    [R[0,2] = -sin] and [R[2,0] = +sin]; [Rz] has [R[0,1] = +sin] and
    [R[1,0] = -sin]; each within 1e-8.  The sine of 45 degrees is positive,
    so the signs are those of the passive convention. *)
Theorem elementary_rotations_45_degrees :
  let rad := 45 * PI / 180 in
  0 < sin rad /\
  (entry_approx (Rx 45 true) 0 0 1 /\ entry_approx (Rx 45 true) 0 1 0 /\
   entry_approx (Rx 45 true) 0 2 0 /\ entry_approx (Rx 45 true) 1 0 0 /\
   entry_approx (Rx 45 true) 2 0 0 /\
   entry_approx (Rx 45 true) 1 1 (cos rad) /\
   entry_approx (Rx 45 true) 1 2 (sin rad) /\
   entry_approx (Rx 45 true) 2 1 (- sin rad) /\
   entry_approx (Rx 45 true) 2 2 (cos rad)) /\
  (entry_approx (Ry 45 true) 0 2 (- sin rad) /\
   entry_approx (Ry 45 true) 2 0 (sin rad)) /\
  (entry_approx (Rz 45 true) 0 1 (sin rad) /\
   entry_approx (Rz 45 true) 1 0 (- sin rad)).
Proof.
  cbv zeta. split; [apply sin_45_pos|].
  repeat split; apply entry_approx_exact; reflexivity.
Qed.

End AttitudeFacts.

(** ** The RTN transform pair *)

Module RelorbitsFacts.
Import Linalg Relorbits LinalgFacts.
Local Open Scope R_scope.

Lemma is_zero_false (x : R) : is_zero x = false <-> x <> 0.
Proof. unfold is_zero. destruct (Req_dec_T x 0); split; congruence. Qed.

Lemma degenerate_false (x : state) :
  degenerate x = false <->
  norm (pos x) <> 0 /\ norm (cross (pos x) (vel x)) <> 0.
Proof. unfold degenerate. rewrite orb_false_iff, !is_zero_false. tauto. Qed.

Lemma rRTNtoECI_ok (x : state) :
  degenerate x = false -> rRTNtoECI x = Ok (transpose (rtn_rows x)).
Proof. intros H. unfold rRTNtoECI. rewrite H. reflexivity. Qed.

Lemma rECItoRTN_ok (x : state) :
  degenerate x = false -> rECItoRTN x = Ok (rtn_rows x).
Proof.
  intros H. unfold rECItoRTN. rewrite (rRTNtoECI_ok x H). cbn [bind].
  now rewrite transpose_involutive.
Qed.

Lemma rtn_rows_triad (x : state) :
  degenerate x = false ->
  let a := vscale (/ norm (pos x)) (pos x) in
  let b := vscale (/ norm (cross (pos x) (vel x))) (cross (pos x) (vel x)) in
  dot a a = 1 /\ dot b b = 1 /\ dot a b = 0.
Proof.
  intros H. apply degenerate_false in H. destruct H as [Hr Hh]. simpl.
  repeat split; try now apply unit_vscale.
  rewrite dot_vscale, dot_cross_left. ring.
Qed.

Lemma rtn_rows_orthonormal (x : state) :
  degenerate x = false -> orthonormal (rtn_rows x).
Proof.
  intros H. destruct (rtn_rows_triad x H) as (Ha & Hb & Hab).
  split; [now apply triad_rows | now apply triad_columns].
Qed.

Lemma sECItoRTN_ok (x xt : state) :
  degenerate x = false ->
  sECItoRTN x xt =
  Ok (mkState (mvmul (rtn_rows x) (vsub (pos xt) (pos x)))
        (vsub (mvmul (rtn_rows x) (vsub (vel xt) (vel x)))
           (cross (omega x) (mvmul (rtn_rows x) (vsub (pos xt) (pos x)))))).
Proof. intros H. unfold sECItoRTN. now rewrite (rECItoRTN_ok x H). Qed.


(** C2: for a non-degenerate chief both rotations are defined, [rECItoRTN]
    is the transpose of [rRTNtoECI], and both matrices are orthonormal. *)
Theorem rtn_rotations_transpose_orthonormal (x : state) :
  degenerate x = false ->
  exists rtn_to_eci eci_to_rtn,
    rRTNtoECI x = Ok rtn_to_eci /\
    rECItoRTN x = Ok eci_to_rtn /\
    eci_to_rtn = transpose rtn_to_eci /\
    orthonormal rtn_to_eci /\ orthonormal eci_to_rtn.
Proof.
  intros H. exists (transpose (rtn_rows x)), (rtn_rows x).
  split; [now apply rRTNtoECI_ok|].
  split; [now apply rECItoRTN_ok|].
  split; [now rewrite transpose_involutive|].
  split; [apply orthonormal_transpose|]; now apply rtn_rows_orthonormal.
Qed.

(** A degenerate chief is rejected by all four operations. *)
Lemma degenerate_chief_rejected (x xt : state) :
  degenerate x = true ->
  rRTNtoECI x = Raise DomainError /\ rECItoRTN x = Raise DomainError /\
  sECItoRTN x xt = Raise DomainError /\ sRTNtoECI x xt = Raise DomainError.
Proof.
  intros H. unfold sECItoRTN, sRTNtoECI, rECItoRTN, rRTNtoECI.
  rewrite H. repeat split.
Qed.

Lemma cross_circular (a k : R) : cross (a, 0, 0) (0, k, 0) = (0, 0, a * k).
Proof. unfold cross. tuple_eq; ring. Qed.

Lemma circular_chief_regular (a k : R) :
  0 < a -> 0 < k -> degenerate (circular_chief a k) = false.
Proof.
  intros Ha Hk. apply degenerate_false. simpl pos; simpl vel.
  rewrite cross_circular, norm_axis_x, norm_axis_z by nra. split; nra.
Qed.

Lemma unit_chief_regular : degenerate unit_chief = false.
Proof. apply circular_chief_regular; lra. Qed.

Lemma rtn_rows_circular (a k : R) :
  0 < a -> 0 < k -> rtn_rows (circular_chief a k) = identity.
Proof.
  intros Ha Hk. unfold rtn_rows. simpl pos; simpl vel.
  rewrite cross_circular, norm_axis_x, norm_axis_z by nra.
  unfold identity, vscale, cross. tuple_eq; field; nra.
Qed.

Lemma omega_circular (a k : R) :
  0 < a -> omega (circular_chief a k) = (0, 0, k / a).
Proof.
  intros Ha. unfold omega. simpl pos; simpl vel.
  rewrite cross_circular, norm_axis_x by nra.
  unfold vscale. tuple_eq; field; nra.
Qed.

(** The relative state of a target displaced by [d] along the chief's
    radius, with the chief's velocity. *)
Lemma sECItoRTN_circular_offset (a k d : R) :
  0 < a -> 0 < k ->
  sECItoRTN (circular_chief a k)
            (state_add (circular_chief a k) (mkState (d, 0, 0) (0, 0, 0)))
  = Ok (mkState (d, 0, 0) (0, - (d * (k / a)), 0)).
Proof.
  intros Ha Hk.
  rewrite sECItoRTN_ok by now apply circular_chief_regular.
  rewrite rtn_rows_circular, omega_circular, !mvmul_identity by assumption.
  f_equal. unfold state_add, circular_chief, pos, vel, vadd, vsub, cross.
  f_equal; tuple_eq; ring.
Qed.

(** A chief whose radial, transverse and normal directions are none of
    the axes. *)
Lemma oblique_chief_regular :
  degenerate (mkState (1, 2, 3) (4, 5, 6)) = false.
Proof.
  apply degenerate_false. cbn [pos vel]. unfold norm, cross, dot.
  split; intros H; apply sqrt_eq_0 in H; lra.
Qed.


Lemma rtn_rotations_witness :
  degenerate unit_chief = false /\
  exists rtn_to_eci eci_to_rtn,
    rRTNtoECI unit_chief = Ok rtn_to_eci /\
    rECItoRTN unit_chief = Ok eci_to_rtn /\
    eci_to_rtn = transpose rtn_to_eci /\
    orthonormal rtn_to_eci /\ orthonormal eci_to_rtn.
Proof.
  split; [exact unit_chief_regular|].
  exact (rtn_rotations_transpose_orthonormal unit_chief unit_chief_regular).
Defined.

End RelorbitsFacts.

(** ** brahe.relorbits in binary64: the rounding of the round trip *)

Module Binary64Facts.
Import PrimFloat Binary64.
Local Open Scope float_scope.


End Binary64Facts.

(** ** Elements to Cartesian state, and the circular-orbit scenario *)

Module OrbitsFacts.
Import Linalg Attitude Relorbits Orbits LinalgFacts RelorbitsFacts.
Local Open Scope R_scope.

Lemma to_radians_zero (use_degrees : bool) : to_radians 0 use_degrees = 0.
Proof. destruct use_degrees; simpl; lra. Qed.

Lemma rotation_zero :
  mmul (Rz (- 0) false) (mmul (Rx (- 0) false) (Rz (- 0) false)) = identity.
Proof.
  unfold Rz, Rx, to_radians. rewrite Ropp_0, cos_0, sin_0.
  unfold identity. simpl. tuple_eq; ring.
Qed.

(** With 40000 GM <= a^3 the mean motion [sqrt (GM / a^3)] is at most
    0.005 rad/s. *)
Lemma mean_motion_bound (GM a : R) :
  0 < a -> 0 < GM -> 40000 * GM <= a ^ 3 ->
  0 <= sqrt (GM * a) / a / a <= / 200.
Proof.
  intros Ha HG Hslow.
  assert (Hs : 0 <= sqrt (GM * a)) by apply sqrt_pos.
  assert (Hle : sqrt (GM * a) <= a * a / 200).
  { replace (a * a / 200) with (sqrt ((a * a / 200) * (a * a / 200)))
      by (apply sqrt_square; nra).
    apply sqrt_le_1; nra. }
  split.
  - apply Rle_mult_inv_pos; [|assumption]. apply Rle_mult_inv_pos; assumption.
  - apply Rmult_le_reg_r with (a * a); [nra|].
    replace (sqrt (GM * a) / a / a * (a * a)) with (sqrt (GM * a))
      by (field; lra).
    lra.
Qed.

Section Solver.

Variable GM_EARTH R_EARTH : R.
Variable kepler_tol : R.
Variable kepler_max_iter : nat.
Variable kepler_start : R -> R -> R.

(** A value that already solves Kepler's equation is returned as it is. *)
Lemma kepler_newton_fixed_point (budget : nat) (M e E : R) :
  0 <= kepler_tol ->
  E - e * sin E - M = 0 ->
  kepler_newton kepler_tol budget M e E = Ok E.
Proof.
  intros Htol H. destruct budget; simpl; rewrite H, Rabs_R0;
    destruct (Rle_dec 0 kepler_tol); trivial; contradiction.
Qed.

(** Whatever the solver returns satisfies Kepler's equation within the
    tolerance. *)
Lemma kepler_newton_residual (budget : nat) (M e E0 E : R) :
  kepler_newton kepler_tol budget M e E0 = Ok E ->
  Rabs (E - e * sin E - M) <= kepler_tol.
Proof.
  revert E0. induction budget as [|budget IH]; intros E0; simpl;
    destruct (Rle_dec (Rabs (E0 - e * sin E0 - M)) kepler_tol) as [Hle|Hgt];
    intros H; try discriminate; try (inversion H; subst; exact Hle).
  exact (IH _ H).
Qed.

(** With the budget used up and the residual still above the tolerance the
    solver fails. *)
Lemma kepler_newton_out_of_budget (M e E : R) :
  kepler_tol < Rabs (E - e * sin E - M) ->
  kepler_newton kepler_tol 0 M e E = Raise ConvergenceError.
Proof.
  intros H. simpl. destruct (Rle_dec _ kepler_tol); [lra | reflexivity].
Qed.

(** Degenerate elements are rejected. *)
Lemma sOSCtoCART_degenerate (oe : elements) (use_degrees : bool) :
  sma oe <= 0 \/ 1 <= ecc oe ->
  sOSCtoCART GM_EARTH kepler_tol kepler_max_iter kepler_start oe use_degrees
  = Raise DomainError.
Proof.
  intros H. unfold sOSCtoCART.
  destruct (Rle_dec (sma oe) 0); [reflexivity|].
  destruct (Rle_dec 1 (ecc oe)); [reflexivity | lra].
Qed.

Lemma sOSCtoCART_circular_equatorial (a : R) (use_degrees : bool) :
  0 < a -> 0 <= kepler_tol -> kepler_start 0 0 = 0 ->
  sOSCtoCART GM_EARTH kepler_tol kepler_max_iter kepler_start
    (mkElements a 0 0 0 0 0) use_degrees
  = Ok (circular_chief a (sqrt (GM_EARTH * a) / a)).
Proof.
  intros Ha Htol Hstart. unfold sOSCtoCART. cbn [sma ecc inc raan argp anm].
  destruct (Rle_dec a 0) as [Hle|_]; [lra|].
  destruct (Rle_dec 1 0) as [Hle|_]; [lra|].
  rewrite !to_radians_zero. unfold anomaly_mean_to_eccentric.
  rewrite Hstart, kepler_newton_fixed_point by (trivial; rewrite sin_0; ring).
  cbn [bind]. rewrite rotation_zero, !mvmul_identity, cos_0, sin_0.
  replace (1 - 0 * 0) with 1 by ring. rewrite sqrt_1.
  unfold circular_chief. f_equal. f_equal; tuple_eq; field; lra.
Qed.

(** C4: the chief has elements [a = R_EARTH + 500e3, e = i = RAAN = omega
    = M = 0] converted by [sOSCtoCART] with [use_degrees], the target is the
    chief displaced by 100 m in x with the same velocity.  Then [sECItoRTN]
    gives radial 100, transverse 0, normal 0, radial rate 0 and normal rate 0
    within 1e-8, and transverse rate 0 within 0.5.  The constants enter
    through [0 < R_EARTH], [0 < GM_EARTH] and a mean motion of at most
    0.005 rad/s; the solver through a non-negative tolerance and a start
    value 0 for [M = 0], [e = 0]. *)
Theorem rtn_state_circular_offset :
  0 < R_EARTH -> 0 < GM_EARTH ->
  40000 * GM_EARTH <= (R_EARTH + 500e3) ^ 3 ->
  0 <= kepler_tol -> kepler_start 0 0 = 0 ->
  exists eci x_rtn,
    sOSCtoCART GM_EARTH kepler_tol kepler_max_iter kepler_start
      (mkElements (R_EARTH + 500e3) 0 0 0 0 0) true = Ok eci /\
    sECItoRTN eci (state_add eci (mkState (100, 0, 0) (0, 0, 0))) = Ok x_rtn /\
    approx_each
      [(100, 1e-8); (0, 1e-8); (0, 1e-8); (0, 1e-8); (0, 0.5); (0, 1e-8)]
      (components x_rtn).
Proof.
  intros HR HG Hslow Htol Hstart.
  set (a := R_EARTH + 500e3) in *.
  assert (Ha : 0 < a) by (unfold a; lra).
  assert (Hk : 0 < sqrt (GM_EARTH * a) / a).
  { apply Rdiv_lt_0_compat; [apply sqrt_lt_R0; nra | assumption]. }
  eexists; eexists.
  split; [now apply sOSCtoCART_circular_equatorial|].
  split; [now apply sECItoRTN_circular_offset|].
  pose proof (mean_motion_bound GM_EARTH a Ha HG Hslow) as [Hn0 Hn1].
  unfold approx_each, components, approx_abs; cbn [pos vel fst snd].
  repeat (apply Forall2_cons; [|]); try apply Forall2_nil; cbn [fst snd];
    try (rewrite Rminus_diag, Rabs_R0; lra).
  rewrite Rminus_0_r, Rabs_Ropp, Rabs_pos_eq by nra. lra.
Qed.

End Solver.

Lemma rtn_state_circular_offset_witness :
  0 < 6378136.3 /\ 0 < 3.986004415e14 /\
  40000 * 3.986004415e14 <= (6378136.3 + 500e3) ^ 3 /\
  0 <= 1e-12 /\
  exists eci x_rtn,
    sOSCtoCART 3.986004415e14 1e-12 10 (fun M e => M)
      (mkElements (6378136.3 + 500e3) 0 0 0 0 0) true = Ok eci /\
    sECItoRTN eci (state_add eci (mkState (100, 0, 0) (0, 0, 0))) = Ok x_rtn /\
    approx_each
      [(100, 1e-8); (0, 1e-8); (0, 1e-8); (0, 1e-8); (0, 0.5); (0, 1e-8)]
      (components x_rtn).
Proof.
  assert (H1 : 0 < 6378136.3) by lra.
  assert (H2 : 0 < 3.986004415e14) by lra.
  assert (H3 : 40000 * 3.986004415e14 <= (6378136.3 + 500e3) ^ 3) by lra.
  assert (H4 : 0 <= 1e-12) by lra.
  repeat split; trivial.
  exact (rtn_state_circular_offset 3.986004415e14 6378136.3 1e-12 10
           (fun M e => M) H1 H2 H3 H4 eq_refl).
Defined.

End OrbitsFacts.

(** ** Earth-observation data models *)

Module EarthObservationFacts.
Import Datetime EarthObservation.
Local Open Scope Q_scope.
Local Open Scope string_scope.
Local Open Scope result_scope.

(** *** JSON encoders *)

(** Dropping the last three of the six microsecond digits leaves the three
    digits of the whole milliseconds. *)
Lemma zpad6_prefix (n : Z) :
  zpad 6 n = zpad 3 (n / 1000) ++ zpad 3 n.
Proof.
  cbv [zpad append].
  change (10 ^ Z.of_nat 5)%Z with 100000%Z.
  change (10 ^ Z.of_nat 4)%Z with 10000%Z.
  change (10 ^ Z.of_nat 3)%Z with 1000%Z.
  change (10 ^ Z.of_nat 2)%Z with 100%Z.
  change (10 ^ Z.of_nat 1)%Z with 10%Z.
  change (10 ^ Z.of_nat 0)%Z with 1%Z.
  rewrite !Z.div_div by lia. reflexivity.
Qed.

Lemma encode_datetime_format (d : datetime) :
  encode_datetime d =
  zpad 4 (year d) ++ "-" ++ zpad 2 (month d) ++ "-" ++ zpad 2 (day d) ++ "T"
  ++ zpad 2 (hour d) ++ ":" ++ zpad 2 (minute d) ++ ":" ++ zpad 2 (second d)
  ++ "." ++ zpad 3 (microsecond d / 1000) ++ "Z".
Proof.
  unfold encode_datetime.
  cbn [strftime Ascii.eqb Bool.eqb].
  rewrite zpad6_prefix.
  cbv [zpad append drop_last String.length substring Nat.sub]. reflexivity.
Qed.

Example encode_datetime_example :
  encode_datetime (mkDatetime 2018 1 1 12 0 7 123999)
  = "2018-01-01T12:00:07.123Z".
Proof. reflexivity. Qed.

(** C8: every model derived from [EOBase] encodes a datetime as its
    [strftime('%Y-%m-%dT%H:%M:%S.%f')] without the last three characters and
    with ['Z'] appended, that is, with the microseconds truncated to whole
    milliseconds; and it encodes a numpy array as the nested list of its
    items. *)
Theorem json_encoders_format (cls : eo_model) :
  (forall d : datetime,
     model_json_encoders cls (OfDatetime d)
     = JString (drop_last 3 (strftime "%Y-%m-%dT%H:%M:%S.%f" d) ++ "Z") /\
     model_json_encoders cls (OfDatetime d)
     = JString
         (zpad 4 (year d) ++ "-" ++ zpad 2 (month d) ++ "-" ++ zpad 2 (day d)
          ++ "T" ++ zpad 2 (hour d) ++ ":" ++ zpad 2 (minute d) ++ ":"
          ++ zpad 2 (second d) ++ "." ++ zpad 3 (microsecond d / 1000) ++ "Z"))
  /\
  (forall x : Q, model_json_encoders cls (OfNdarray (Scalar x)) = JNumber x) /\
  (forall items : list ndarray,
     model_json_encoders cls (OfNdarray (Axis items))
     = JList (map (fun a => model_json_encoders cls (OfNdarray a)) items)).
Proof.
  unfold model_json_encoders, json_encoders. repeat split.
  now rewrite <- encode_datetime_format.
Qed.

(** *** TimeWindowProperties *)

Section TimeWindowFacts.

Variable Epoch : Type.
Variable epoch_to_datetime : Epoch -> datetime.
Variable epoch_of_str : string -> result Epoch.

Local Abbreviation set_times := (set_times Epoch epoch_to_datetime epoch_of_str).
Local Abbreviation as_datetime :=
  (as_datetime Epoch epoch_to_datetime epoch_of_str).
Local Abbreviation truthy_time := (truthy_time Epoch).
Local Abbreviation supplied_count := (supplied_count Epoch).

Section Over.

Variable to_timedelta : Q -> result timedelta.
Variable to_seconds : timedelta -> Q.

Local Abbreviation set_times_over :=
  (set_times_over Epoch epoch_to_datetime epoch_of_str to_timedelta
     to_seconds).

Lemma over_too_few (values : window_input Epoch) :
  (supplied_count values < 2)%nat -> set_times_over values = Raise two_needed.
Proof.
  unfold EarthObservation.supplied_count, EarthObservation.set_times_over.
  destruct (truthy_time (in_t_start _ values)),
           (truthy_time (in_t_end _ values)),
           (truthy_float (in_t_duration _ values)); cbn; intros H;
    solve [reflexivity | lia].
Qed.

Lemma over_start_end (values : window_input Epoch) (start stop : datetime) :
  truthy_time (in_t_start _ values) = true ->
  truthy_time (in_t_end _ values) = true ->
  as_datetime (in_t_start _ values) = Ok start ->
  as_datetime (in_t_end _ values) = Ok stop ->
  set_times_over values =
  if dt_leb stop start
  then Raise (ValueError "t_end must be after t_start")
  else let duration := to_seconds (dt_diff stop start) in
       delta <- to_timedelta duration ;;
       mid <- dt_add start (td_half delta) ;;
       Ok (mkWindow start mid stop duration).
Proof.
  intros Hs He Hds Hde. unfold EarthObservation.set_times_over.
  rewrite Hs, He, Hds, Hde. cbn [andb bind].
  destruct (dt_leb stop start); reflexivity.
Qed.

Lemma over_start_duration (values : window_input Epoch)
  (start : datetime) (duration : Q) :
  truthy_time (in_t_start _ values) = true ->
  truthy_time (in_t_end _ values) = false ->
  in_t_duration _ values = Some duration ->
  truthy_float (Some duration) = true ->
  as_datetime (in_t_start _ values) = Ok start ->
  set_times_over values =
  delta <- to_timedelta duration ;;
  stop <- dt_add start delta ;;
  mid <- dt_add start (td_half delta) ;;
  Ok (mkWindow start mid stop duration).
Proof.
  intros Hs He Hd Hdt Hds. unfold EarthObservation.set_times_over.
  rewrite Hs, He, Hd, Hdt, Hds. cbn [andb bind as_seconds].
  destruct (to_timedelta duration) as [delta|e] eqn:Hdelta;
    cbn [bind]; [|reflexivity].
  destruct (dt_add start delta); cbn [bind]; [|reflexivity].
  now rewrite Hdelta.
Qed.

Lemma over_end_duration (values : window_input Epoch)
  (stop : datetime) (duration : Q) :
  truthy_time (in_t_start _ values) = false ->
  truthy_time (in_t_end _ values) = true ->
  in_t_duration _ values = Some duration ->
  truthy_float (Some duration) = true ->
  as_datetime (in_t_end _ values) = Ok stop ->
  set_times_over values =
  delta <- to_timedelta duration ;;
  start <- dt_sub_delta stop delta ;;
  mid <- dt_add start (td_half delta) ;;
  Ok (mkWindow start mid stop duration).
Proof.
  intros Hs He Hd Hdt Hde. unfold EarthObservation.set_times_over.
  rewrite Hs, He, Hd, Hdt, Hde. cbn [andb bind as_seconds].
  destruct (to_timedelta duration) as [delta|e] eqn:Hdelta;
    cbn [bind]; [|reflexivity].
  destruct (dt_sub_delta stop delta); cbn [bind]; [|reflexivity].
  now rewrite Hdelta.
Qed.

(** C7, as amended: exactly two of [t_start], [t_end], [t_duration] are
    supplied, the times convert to datetimes, the duration is not zero, the
    end is after the start when these are the two, and every sum stays
    within the range of the datetime type.  Then the third field is derived
    ([t_duration] as the total seconds of [t_end - t_start]; [t_end] as
    [t_start] plus [timedelta(seconds=t_duration)]; [t_start] as [t_end]
    minus it) and [t_mid] is [t_start] plus half of
    [timedelta(seconds=t_duration)].  This holds whatever the two float
    conversions of the library compute. *)
Theorem set_times_derives_third (values : window_input Epoch) :
  supplied_count values = 2%nat ->
  (forall (start stop mid : datetime) (delta : timedelta),
     truthy_time (in_t_start _ values) = true ->
     truthy_time (in_t_end _ values) = true ->
     as_datetime (in_t_start _ values) = Ok start ->
     as_datetime (in_t_end _ values) = Ok stop ->
     dt_leb stop start = false ->
     let duration := to_seconds (dt_diff stop start) in
     to_timedelta duration = Ok delta ->
     dt_add start (td_half delta) = Ok mid ->
     set_times_over values = Ok (mkWindow start mid stop duration))
  /\
  (forall (start stop mid : datetime) (duration : Q) (delta : timedelta),
     truthy_time (in_t_start _ values) = true ->
     in_t_duration _ values = Some duration ->
     truthy_float (Some duration) = true ->
     as_datetime (in_t_start _ values) = Ok start ->
     to_timedelta duration = Ok delta ->
     dt_add start delta = Ok stop ->
     dt_add start (td_half delta) = Ok mid ->
     set_times_over values = Ok (mkWindow start mid stop duration))
  /\
  (forall (start stop mid : datetime) (duration : Q) (delta : timedelta),
     truthy_time (in_t_end _ values) = true ->
     in_t_duration _ values = Some duration ->
     truthy_float (Some duration) = true ->
     as_datetime (in_t_end _ values) = Ok stop ->
     to_timedelta duration = Ok delta ->
     dt_sub_delta stop delta = Ok start ->
     dt_add start (td_half delta) = Ok mid ->
     set_times_over values = Ok (mkWindow start mid stop duration)).
Proof.
  intros Hcount. split; [|split].
  - intros start stop mid delta Hs He Hds Hde Hlt duration Hdelta Hmid.
    rewrite (over_start_end values start stop) by assumption.
    rewrite Hlt. cbv zeta. fold duration. rewrite Hdelta. cbn [bind].
    now rewrite Hmid.
  - intros start stop mid duration delta Hs Hd Hdt Hds Hdelta Hstop Hmid.
    rewrite (over_start_duration values start duration); trivial.
    + rewrite Hdelta. cbn [bind]. rewrite Hstop. cbn [bind]. now rewrite Hmid.
    + unfold EarthObservation.supplied_count in Hcount.
      rewrite Hs, Hd, Hdt in Hcount.
      destruct (truthy_time (in_t_end _ values));
        [discriminate | reflexivity].
  - intros start stop mid duration delta He Hd Hdt Hde Hdelta Hstart Hmid.
    rewrite (over_end_duration values stop duration); trivial.
    + rewrite Hdelta. cbn [bind]. rewrite Hstart. cbn [bind].
      now rewrite Hmid.
    + unfold EarthObservation.supplied_count in Hcount.
      rewrite He, Hd, Hdt in Hcount.
      destruct (truthy_time (in_t_start _ values));
        [discriminate | reflexivity].
Qed.

End Over.

Lemma set_times_too_few (values : window_input Epoch) :
  (supplied_count values < 2)%nat -> set_times values = Raise two_needed.
Proof. apply over_too_few. Qed.

Lemma set_times_start_end (values : window_input Epoch)
  (start stop : datetime) :
  truthy_time (in_t_start _ values) = true ->
  truthy_time (in_t_end _ values) = true ->
  as_datetime (in_t_start _ values) = Ok start ->
  as_datetime (in_t_end _ values) = Ok stop ->
  set_times values =
  if dt_leb stop start
  then Raise (ValueError "t_end must be after t_start")
  else let duration := total_seconds (dt_diff stop start) in
       mid <- mid_time start duration ;;
       Ok (mkWindow start mid stop duration).
Proof.
  intros Hs He Hds Hde. unfold EarthObservation.set_times.
  rewrite (over_start_end _ _ values start stop) by assumption.
  destruct (dt_leb stop start); [reflexivity|]. cbv zeta. unfold mid_time.
  destruct (timedelta_seconds (total_seconds (dt_diff stop start)))
    as [delta|e]; cbn [bind]; reflexivity.
Qed.

Lemma set_times_start_duration (values : window_input Epoch)
  (start : datetime) (duration : Q) :
  truthy_time (in_t_start _ values) = true ->
  truthy_time (in_t_end _ values) = false ->
  in_t_duration _ values = Some duration ->
  truthy_float (Some duration) = true ->
  as_datetime (in_t_start _ values) = Ok start ->
  set_times values =
  delta <- timedelta_seconds duration ;;
  stop <- dt_add start delta ;;
  mid <- dt_add start (td_half delta) ;;
  Ok (mkWindow start mid stop duration).
Proof.
  intros. unfold EarthObservation.set_times.
  now apply over_start_duration.
Qed.

Lemma set_times_end_duration (values : window_input Epoch)
  (stop : datetime) (duration : Q) :
  truthy_time (in_t_start _ values) = false ->
  truthy_time (in_t_end _ values) = true ->
  in_t_duration _ values = Some duration ->
  truthy_float (Some duration) = true ->
  as_datetime (in_t_end _ values) = Ok stop ->
  set_times values =
  delta <- timedelta_seconds duration ;;
  start <- dt_sub_delta stop delta ;;
  mid <- dt_add start (td_half delta) ;;
  Ok (mkWindow start mid stop duration).
Proof.
  intros. unfold EarthObservation.set_times.
  now apply over_end_duration.
Qed.

(** C9: [set_times] raises a [ValueError], and so no object is built, when
    fewer than two of [t_start], [t_end], [t_duration] are truthy, and when
    start and end are both supplied and the end is not after the start. *)
Theorem set_times_rejects (values : window_input Epoch) :
  ((supplied_count values < 2)%nat -> set_times values = Raise two_needed)
  /\
  (forall start stop : datetime,
     truthy_time (in_t_start _ values) = true ->
     truthy_time (in_t_end _ values) = true ->
     as_datetime (in_t_start _ values) = Ok start ->
     as_datetime (in_t_end _ values) = Ok stop ->
     dt_leb stop start = true ->
     set_times values = Raise (ValueError "t_end must be after t_start")).
Proof.
  split.
  - apply set_times_too_few.
  - intros start stop Hs He Hds Hde Hle.
    rewrite (set_times_start_end values start stop) by assumption.
    now rewrite Hle.
Qed.

End TimeWindowFacts.

(** The last day the type can hold.  A start at its noon and a duration of
    one day are supplied: the end would fall in the year 10000, the sum
    raises an [OverflowError] and nothing is derived, whatever the float
    conversions are, as long as [timedelta(seconds=86400.0)] is one day. *)
Lemma set_times_past_the_last_year :
  timedelta_seconds 86400 = Ok 86400000000%Z /\
  forall (Epoch : Type) (epoch_to_datetime : Epoch -> datetime)
         (epoch_of_str : string -> result Epoch)
         (to_timedelta : Q -> result timedelta)
         (to_seconds : timedelta -> Q),
    to_timedelta 86400 = Ok 86400000000%Z ->
    let values :=
      mkWindowInput Epoch
        (Some (VDatetime Epoch (mkDatetime 9999 12 31 12 0 0 0))) None
        (Some 86400) in
    supplied_count Epoch values = 2%nat /\
    set_times_over Epoch epoch_to_datetime epoch_of_str to_timedelta
      to_seconds values
    = Raise OverflowError.
Proof.
  split; [reflexivity|]. intros Epoch to_dt of_str to_td to_s Hday values.
  split; [reflexivity|].
  unfold values, set_times_over. cbn [in_t_start in_t_end in_t_duration
    truthy_time truthy_float andb as_datetime as_seconds bind].
  change (negb (Qeq_bool 86400 0)) with true. cbn iota.
  cbn [bind]. rewrite Hday. reflexivity.
Qed.

(** Start and end are both supplied, the end an hour before the start:
    nothing is derived, the construction raises. *)
Lemma set_times_end_before_start :
  dt_leb noon one_pm = true /\
  forall (Epoch : Type) (epoch_to_datetime : Epoch -> datetime)
         (epoch_of_str : string -> result Epoch),
    let values := mkWindowInput Epoch (Some (VDatetime Epoch one_pm))
                    (Some (VDatetime Epoch noon)) None in
    supplied_count Epoch values = 2%nat /\
    set_times Epoch epoch_to_datetime epoch_of_str values
    = Raise (ValueError "t_end must be after t_start").
Proof. split; [reflexivity|]. intros. split; reflexivity. Qed.

(** A start and a zero duration are supplied: the zero is falsy, and the
    construction raises. *)
Lemma set_times_zero_duration :
  forall (Epoch : Type) (epoch_to_datetime : Epoch -> datetime)
         (epoch_of_str : string -> result Epoch),
    set_times Epoch epoch_to_datetime epoch_of_str
      (mkWindowInput Epoch (Some (VDatetime Epoch noon)) None (Some 0))
    = Raise two_needed.
Proof. reflexivity. Qed.

Lemma set_times_derives_third_witness :
  dt_leb one_pm noon = false /\
  forall (Epoch : Type) (epoch_to_datetime : Epoch -> datetime)
         (epoch_of_str : string -> result Epoch),
    set_times Epoch epoch_to_datetime epoch_of_str
      (mkWindowInput Epoch (Some (VDatetime Epoch noon))
         (Some (VDatetime Epoch one_pm)) None)
    = Ok (mkWindow noon (mkDatetime 2018 1 1 12 30 0 0) one_pm
            (3600000000 # 1000000)).
Proof.
  split; [reflexivity|]. intros Epoch to_dt of_str.
  destruct (set_times_derives_third Epoch to_dt of_str timedelta_seconds
              total_seconds
              (mkWindowInput Epoch (Some (VDatetime Epoch noon))
                 (Some (VDatetime Epoch one_pm)) None) eq_refl) as [H _].
  exact (H noon one_pm (mkDatetime 2018 1 1 12 30 0 0) 3600000000%Z
           eq_refl eq_refl eq_refl eq_refl eq_refl eq_refl eq_refl).
Defined.

Lemma set_times_rejects_witness :
  (1 < 2)%nat /\
  forall (Epoch : Type) (epoch_to_datetime : Epoch -> datetime)
         (epoch_of_str : string -> result Epoch),
    set_times Epoch epoch_to_datetime epoch_of_str
      (mkWindowInput Epoch (Some (VDatetime Epoch noon)) None None)
    = Raise two_needed.
Proof.
  split; [lia|]. intros Epoch to_dt of_str.
  apply (proj1 (set_times_rejects Epoch to_dt of_str
           (mkWindowInput Epoch (Some (VDatetime Epoch noon)) None None))).
  cbn. lia.
Defined.

(** A start from an hour and a half-second duration, and an end with a
    duration: the derived fields, computed. *)
Example set_times_start_duration_example :
  set_times datetime (fun e => e) (fun _ => Raise TypeError)
    (mkWindowInput datetime (Some (VDatetime datetime noon)) None (Some (3 # 2)))
  = Ok (mkWindow noon (mkDatetime 2018 1 1 12 0 0 750000)
          (mkDatetime 2018 1 1 12 0 1 500000) (3 # 2)).
Proof. reflexivity. Qed.

Example set_times_end_duration_example :
  set_times datetime (fun e => e) (fun _ => Raise TypeError)
    (mkWindowInput datetime None (Some (VDatetime datetime one_pm)) (Some 3600))
  = Ok (mkWindow noon (mkDatetime 2018 1 1 12 30 0 0) one_pm 3600).
Proof. reflexivity. Qed.

(** *** AccessConstraints *)

Lemma confloat_ok (lo hi v w : Q) :
  confloat lo hi v = Ok w ->
  w = v /\ Qle_bool lo v = true /\ Qle_bool v hi = true.
Proof.
  unfold confloat. destruct (Qle_bool lo v), (Qle_bool v hi); cbn; intros H;
    inversion H; auto.
Qed.

Lemma validate_look_angle_ok : accepts_checked validate_look_angle.
Proof.
  intros mx mn w. unfold validate_look_angle.
  destruct mn as [m|]; [|discriminate].
  destruct (Qeq_bool m 0) eqn:Hz, (Qle_bool m mx) eqn:Hle; cbn; intros H;
    try discriminate.
  inversion H; subst. exists m. auto.
Qed.

Lemma validate_elevation_ok : accepts_checked validate_elevation.
Proof.
  intros mx mn w. unfold validate_elevation.
  destruct mn as [m|]; [|discriminate].
  destruct (Qeq_bool m 0) eqn:Hz, (Qle_bool m mx) eqn:Hle; cbn; intros H;
    try discriminate.
  inversion H; subst. exists m. auto.
Qed.

Lemma validate_look_angle_raises : rejects_with_value_error validate_look_angle.
Proof.
  intros a b e. unfold validate_look_angle. destruct b as [m|].
  - destruct (Qeq_bool m 0 || negb (Qle_bool m a)); intros H; inversion H;
      eexists; reflexivity.
  - intros H; inversion H; eexists; reflexivity.
Qed.

Lemma validate_elevation_raises : rejects_with_value_error validate_elevation.
Proof.
  intros a b e. unfold validate_elevation. destruct b as [m|].
  - destruct (Qeq_bool m 0 || negb (Qle_bool m a)); intros H; inversion H;
      eexists; reflexivity.
  - intros H; inversion H; eexists; reflexivity.
Qed.

Lemma max_field_ok (mx w : Q) (validator : Q -> option Q -> result Q)
  (minimum : result Q) :
  accepts_checked validator ->
  max_field (Some mx) validator minimum = Ok w ->
  exists m,
    minimum = Ok m /\ w = mx /\ Qeq_bool m 0 = false /\ Qle_bool m mx = true.
Proof.
  intros Hv. unfold max_field, field.
  destruct (confloat 0 90 mx) as [v|e] eqn:Hc; cbn [bind]; [|discriminate].
  apply confloat_ok in Hc. destruct Hc as (-> & _ & _).
  intros H. apply Hv in H. destruct H as (m & Hk & -> & Hz & Hle).
  exists m. destruct minimum; cbn in Hk; inversion Hk; subst. auto.
Qed.

Lemma max_field_zero_min (mx : Q) (validator : Q -> option Q -> result Q)
  (m : Q) :
  accepts_checked validator ->
  Qeq_bool m 0 = true ->
  exists e, max_field (Some mx) validator (Ok m) = Raise e.
Proof.
  intros Hv Hz.
  destruct (max_field (Some mx) validator (Ok m)) as [w|e] eqn:H;
    [|now exists e].
  apply max_field_ok in H; [|assumption].
  destruct H as (m' & Hm & _ & Hz' & _). inversion Hm; subst. congruence.
Qed.

Lemma max_field_value_error (mx : Q) (validator : Q -> option Q -> result Q)
  (minimum : result Q) (e : exn) :
  rejects_with_value_error validator ->
  max_field (Some mx) validator minimum = Raise e ->
  exists msg, e = ValueError msg.
Proof.
  intros Hv. unfold max_field, field, confloat.
  destruct (Qle_bool 0 mx), (Qle_bool mx 90); cbn; intros H;
    try (inversion H; eexists; reflexivity).
  now apply Hv in H.
Qed.

Lemma min_field_zero (supplied : option Q) :
  effective supplied 0 == 0 ->
  exists m, min_field supplied = Ok m /\ Qeq_bool m 0 = true.
Proof.
  destruct supplied as [m|]; cbn; intros H.
  - exists m. unfold confloat.
    assert (H0 : Qle_bool 0 m = true)
      by (apply Qle_bool_iff; rewrite H; discriminate).
    assert (H1 : Qle_bool m 90 = true)
      by (apply Qle_bool_iff; rewrite H; discriminate).
    rewrite H0, H1. split; [reflexivity | now apply Qeq_bool_iff].
  - exists 0. split; reflexivity.
Qed.

Ltac fold_fields kw :=
  unfold AccessConstraints_init;
  fold (min_field (in_look_angle_min kw));
  fold (min_field (in_elevation_min kw));
  fold (max_field (in_look_angle_max kw) validate_look_angle
          (min_field (in_look_angle_min kw)));
  fold (max_field (in_elevation_max kw) validate_elevation
          (min_field (in_elevation_min kw))).

Lemma init_valid (kw : constraints_input) (obj : AccessConstraints) :
  AccessConstraints_init kw = Valid obj ->
  min_field (in_look_angle_min kw) = Ok (look_angle_min obj) /\
  max_field (in_look_angle_max kw) validate_look_angle
    (min_field (in_look_angle_min kw)) = Ok (look_angle_max obj) /\
  min_field (in_elevation_min kw) = Ok (elevation_min obj) /\
  max_field (in_elevation_max kw) validate_elevation
    (min_field (in_elevation_min kw)) = Ok (elevation_max obj).
Proof.
  fold_fields kw.
  destruct (field (in_ascdsc kw) either AscendingDescending_of),
    (field (in_look_direction kw) look_either LookDirection_of),
    (min_field (in_look_angle_min kw)),
    (max_field (in_look_angle_max kw) validate_look_angle _),
    (min_field (in_elevation_min kw)),
    (max_field (in_elevation_max kw) validate_elevation _);
    intros H; inversion H; subst; cbn; auto.
Qed.

Lemma init_look_angle_error (kw : constraints_input) (e : exn) :
  max_field (in_look_angle_max kw) validate_look_angle
    (min_field (in_look_angle_min kw)) = Raise e ->
  exists errors, AccessConstraints_init kw = ValidationError errors /\
                 In ("look_angle_max", e) errors.
Proof.
  fold_fields kw. intros ->.
  destruct (field (in_ascdsc kw) either AscendingDescending_of),
    (field (in_look_direction kw) look_either LookDirection_of),
    (min_field (in_look_angle_min kw)),
    (min_field (in_elevation_min kw)),
    (max_field (in_elevation_max kw) validate_elevation _);
    eexists; (split; [reflexivity | cbn; auto 10]).
Qed.

Lemma init_elevation_error (kw : constraints_input) (e : exn) :
  max_field (in_elevation_max kw) validate_elevation
    (min_field (in_elevation_min kw)) = Raise e ->
  exists errors, AccessConstraints_init kw = ValidationError errors /\
                 In ("elevation_max", e) errors.
Proof.
  fold_fields kw. intros ->.
  destruct (field (in_ascdsc kw) either AscendingDescending_of),
    (field (in_look_direction kw) look_either LookDirection_of),
    (min_field (in_look_angle_min kw)),
    (min_field (in_elevation_min kw)),
    (max_field (in_look_angle_max kw) validate_look_angle _);
    eexists; (split; [reflexivity | cbn; auto 10]).
Qed.

(** C10: when [look_angle_max] is passed, an [AccessConstraints] is built
    only if [look_angle_min] is non-zero and not greater than
    [look_angle_max]; and whenever [look_angle_min] is 0.0, passed or by
    default, the construction raises a [ValidationError] carrying a
    [ValueError] for [look_angle_max].  The same holds of [elevation_max]
    and [elevation_min]. *)
Theorem access_constraints_supplied_maximum (kw : constraints_input) :
  (forall mx : Q, in_look_angle_max kw = Some mx ->
     (forall obj, AccessConstraints_init kw = Valid obj ->
        ~ look_angle_min obj == 0 /\
        look_angle_min obj <= look_angle_max obj) /\
     (effective (in_look_angle_min kw) 0 == 0 ->
        exists errors msg,
          AccessConstraints_init kw = ValidationError errors /\
          In ("look_angle_max", ValueError msg) errors))
  /\
  (forall mx : Q, in_elevation_max kw = Some mx ->
     (forall obj, AccessConstraints_init kw = Valid obj ->
        ~ elevation_min obj == 0 /\ elevation_min obj <= elevation_max obj) /\
     (effective (in_elevation_min kw) 0 == 0 ->
        exists errors msg,
          AccessConstraints_init kw = ValidationError errors /\
          In ("elevation_max", ValueError msg) errors)).
Proof.
  split; intros mx Hmx; split.
  - intros obj H. apply init_valid in H. destruct H as (Hmin & Hmax & _).
    rewrite Hmx in Hmax.
    apply max_field_ok in Hmax; [|apply validate_look_angle_ok].
    destruct Hmax as (m & Hm & Hw & Hz & Hle).
    rewrite Hmin in Hm. inversion Hm; subst m. rewrite Hw. split.
    + intros Heq. apply Qeq_bool_iff in Heq. congruence.
    + now apply Qle_bool_iff.
  - intros Hzero. apply min_field_zero in Hzero.
    destruct Hzero as (m & Hm & Hz).
    destruct (max_field_zero_min mx validate_look_angle m
                validate_look_angle_ok Hz) as [e He].
    destruct (max_field_value_error _ _ _ _ validate_look_angle_raises He)
      as [msg ->].
    destruct (init_look_angle_error kw (ValueError msg)) as (errors & Hi & Hin).
    { now rewrite Hmx, Hm. }
    now exists errors, msg.
  - intros obj H. apply init_valid in H. destruct H as (_ & _ & Hmin & Hmax).
    rewrite Hmx in Hmax.
    apply max_field_ok in Hmax; [|apply validate_elevation_ok].
    destruct Hmax as (m & Hm & Hw & Hz & Hle).
    rewrite Hmin in Hm. inversion Hm; subst m. rewrite Hw. split.
    + intros Heq. apply Qeq_bool_iff in Heq. congruence.
    + now apply Qle_bool_iff.
  - intros Hzero. apply min_field_zero in Hzero.
    destruct Hzero as (m & Hm & Hz).
    destruct (max_field_zero_min mx validate_elevation m
                validate_elevation_ok Hz) as [e He].
    destruct (max_field_value_error _ _ _ _ validate_elevation_raises He)
      as [msg ->].
    destruct (init_elevation_error kw (ValueError msg)) as (errors & Hi & Hin).
    { now rewrite Hmx, Hm. }
    now exists errors, msg.
Qed.

Lemma access_constraints_supplied_maximum_witness :
  effective None 0 == 0 /\
  exists errors msg,
    AccessConstraints_init (mkConstraintsInput None None None (Some 45) None None)
    = ValidationError errors /\
    In ("look_angle_max", ValueError msg) errors.
Proof.
  split; [reflexivity|].
  destruct (access_constraints_supplied_maximum
              (mkConstraintsInput None None None (Some 45) None None))
    as [Hlook _].
  destruct (Hlook 45 eq_refl) as [_ Hraise].
  apply Hraise. reflexivity.
Defined.

(** The construction, run: the default minimum rejects a passed maximum; a
    non-zero minimum below it is accepted; no argument at all is accepted. *)
Example access_constraints_default_minimum :
  AccessConstraints_init (mkConstraintsInput None None None (Some 45) None None)
  = ValidationError
      [("look_angle_max",
        ValueError "Minimum look angle constraint must be less than the maximum constraint.")].
Proof. reflexivity. Qed.

Example access_constraints_accepted :
  AccessConstraints_init
    (mkConstraintsInput None None (Some 10) (Some 45) None None)
  = Valid (mkAccessConstraints either look_either 10 45 0 90).
Proof. reflexivity. Qed.

Example access_constraints_no_argument :
  AccessConstraints_init (mkConstraintsInput None None None None None None)
  = Valid (mkAccessConstraints either look_either 0 90 0 90).
Proof. reflexivity. Qed.

(** *** Collect and Contact *)

Lemma conlist_ok (lo hi : nat) (v : list Q) :
  (lo <= List.length v <= hi)%nat -> conlist lo hi v = Ok v.
Proof.
  intros [Hlo Hhi]. unfold conlist.
  destruct (Nat.ltb_spec (List.length v) lo); [lia|].
  destruct (Nat.ltb_spec hi (List.length v)); [lia|]. reflexivity.
Qed.

Lemma conlist_vec (v : Q * Q * Q) :
  conlist 3 3 (vec_tolist v) = Ok (vec_tolist v).
Proof. destruct v as [[x y] z]. reflexivity. Qed.

Section CenterEcefFacts.

Variable sGEODtoECEF : list Q -> bool -> Q * Q * Q.

Lemma Collect_derives (center : list Q) (center_ecef : option (list Q)) :
  (2 <= List.length center <= 3)%nat ->
  truthy_list center_ecef = false ->
  Collect_center_ecef sGEODtoECEF (Some center) center_ecef
  = Ok (vec_tolist (sGEODtoECEF (with_altitude center) true)).
Proof.
  intros Hlen Hfalsy. unfold Collect_center_ecef, required_field.
  rewrite conlist_ok by assumption. cbn [known].
  assert (Hset : Collect_set_center_ecef sGEODtoECEF center_ecef (Some center)
                 = Ok (vec_tolist (sGEODtoECEF (with_altitude center) true))).
  { destruct center_ecef as [[|x rest]|]; try discriminate;
      destruct center as [|lat [|lon [|alt [|extra more]]]];
      cbn in Hlen; try lia; reflexivity. }
  rewrite Hset. cbn [bind]. apply conlist_vec.
Qed.

Lemma Contact_derives (center : list Q) (center_ecef : option (list Q)) :
  (2 <= List.length center <= 3)%nat ->
  truthy_list center_ecef = false ->
  Contact_center_ecef sGEODtoECEF (Some center) center_ecef
  = Ok (vec_tolist (sGEODtoECEF (with_altitude center) true)).
Proof.
  intros Hlen Hfalsy. unfold Contact_center_ecef, required_field.
  rewrite conlist_ok by assumption. cbn [known].
  assert (Hset : Contact_set_center_ecef sGEODtoECEF center_ecef (Some center)
                 = Ok (vec_tolist (sGEODtoECEF (with_altitude center) true))).
  { destruct center_ecef as [[|x rest]|]; try discriminate;
      destruct center as [|lat [|lon [|alt [|extra more]]]];
      cbn in Hlen; try lia; reflexivity. }
  rewrite Hset. cbn [bind]. apply conlist_vec.
Qed.

Lemma supplied_is_kept (center : option (list Q)) (center_ecef : list Q) :
  List.length center_ecef = 3%nat ->
  Collect_center_ecef sGEODtoECEF center (Some center_ecef) = Ok center_ecef /\
  Contact_center_ecef sGEODtoECEF center (Some center_ecef) = Ok center_ecef.
Proof.
  intros Hlen.
  destruct center_ecef as [|x [|y [|z [|w rest]]]]; try discriminate.
  split; reflexivity.
Qed.

(** C6, as amended: for a [Collect] or [Contact] whose [center_ecef] is
    omitted, [None] or empty, the field is the list of
    [sGEODtoECEF(center, use_degrees=True)], where a two-element [center]
    gets altitude 0; a non-empty [center_ecef] is returned unchanged by the
    validator, and is the field when it has three items. *)
Theorem center_ecef_derived_or_kept (center : list Q)
  (center_ecef : option (list Q)) :
  (2 <= List.length center <= 3)%nat ->
  (truthy_list center_ecef = false ->
     Collect_center_ecef sGEODtoECEF (Some center) center_ecef
     = Ok (vec_tolist (sGEODtoECEF (with_altitude center) true)) /\
     Contact_center_ecef sGEODtoECEF (Some center) center_ecef
     = Ok (vec_tolist (sGEODtoECEF (with_altitude center) true)))
  /\
  (forall supplied : list Q,
     center_ecef = Some supplied -> truthy_list center_ecef = true ->
     Collect_set_center_ecef sGEODtoECEF center_ecef (Some center)
     = Ok supplied /\
     Contact_set_center_ecef sGEODtoECEF center_ecef (Some center)
     = Ok supplied /\
     (List.length supplied = 3%nat ->
        Collect_center_ecef sGEODtoECEF (Some center) center_ecef
        = Ok supplied /\
        Contact_center_ecef sGEODtoECEF (Some center) center_ecef
        = Ok supplied)).
Proof.
  intros Hlen. split.
  - intros Hfalsy. split; [now apply Collect_derives | now apply Contact_derives].
  - intros supplied -> Htruthy. destruct supplied as [|x rest]; [discriminate|].
    repeat split; try reflexivity; now apply supplied_is_kept.
Qed.

End CenterEcefFacts.

(** An empty [center_ecef] is supplied, yet the field is the derived point,
    a list of three items, for a [Collect] as for a [Contact]. *)
Lemma empty_center_ecef_is_replaced :
  truthy_list (Some (@nil Q)) = false /\
  forall sGEODtoECEF : list Q -> bool -> Q * Q * Q,
    Collect_center_ecef sGEODtoECEF (Some [0; 0]) (Some [])
    = Ok (vec_tolist (sGEODtoECEF [0; 0; 0] true)) /\
    Contact_center_ecef sGEODtoECEF (Some [0; 0]) (Some [])
    = Ok (vec_tolist (sGEODtoECEF [0; 0; 0] true)) /\
    vec_tolist (sGEODtoECEF [0; 0; 0] true) <> [].
Proof.
  split; [reflexivity|]. intros geod.
  destruct (geod [0; 0; 0] true) as [[x y] z] eqn:H.
  unfold Collect_center_ecef, Contact_center_ecef. cbn. rewrite H. cbn.
  repeat split. discriminate.
Qed.

Lemma center_ecef_derived_or_kept_witness :
  (2 <= List.length [10; 20] <= 3)%nat /\
  forall sGEODtoECEF : list Q -> bool -> Q * Q * Q,
    Collect_center_ecef sGEODtoECEF (Some [10; 20]) None
    = Ok (vec_tolist (sGEODtoECEF [10; 20; 0] true)).
Proof.
  split; [cbn; lia|]. intros geod.
  destruct (center_ecef_derived_or_kept geod [10; 20] None) as [Hderived _];
    [cbn; lia|].
  now destruct Hderived.
Defined.

End EarthObservationFacts.

(** ** The calendar and [timedelta] arithmetic behind [set_times] *)

Module CalendarFacts.
Import Datetime.
Local Open Scope Z_scope.

Ltac divlia := Z.to_euclidean_division_equations; lia.

(** [days_from_civil] undoes [civil_from_days], whose month and day are in
    range. *)
Lemma days_from_civil_from_days (z y m d : Z) :
  civil_from_days z = (y, m, d) ->
  days_from_civil y m d = z /\ 1 <= m <= 12 /\ 1 <= d <= 31.
Proof.
  unfold civil_from_days. cbv zeta.
  set (z' := z + 719468).
  set (era := z' / 146097).
  set (doe := z' - era * 146097).
  set (yoe := (doe - doe / 1460 + doe / 36524 - doe / 146096) / 365).
  set (doy := doe - (365 * yoe + yoe / 4 - yoe / 100)).
  set (mp := (5 * doy + 2) / 153).
  assert (Hdoe : 0 <= doe < 146097) by (unfold doe, era; divlia).
  assert (Hyoe : 0 <= yoe <= 399) by (unfold yoe; divlia).
  assert (Hdoy : 0 <= doy <= 365) by (unfold doy, yoe; divlia).
  assert (Hmp : 0 <= mp <= 11) by (unfold mp; divlia).
  assert (Hd : 1 <= doy - (153 * mp + 2) / 5 + 1 <= 31) by (unfold mp; divlia).
  assert (Edoy : doy = doe - (365 * yoe + yoe / 4 - yoe / 100)) by reflexivity.
  assert (Edoe : doe = z' - era * 146097) by reflexivity.
  assert (Ez : z' = z + 719468) by reflexivity.
  clearbody mp doy yoe doe era z'.
  intros Heq. apply pair_equal_spec in Heq. destruct Heq as [Heq <-].
  apply pair_equal_spec in Heq. destruct Heq as [<- <-].
  unfold days_from_civil. cbv zeta.
  destruct (Z.ltb_spec mp 10) as [Hlt|Hge].
  - destruct (Z.leb_spec (mp + 3) 2); [lia|].
    replace ((mp + 3 + 9) mod 12) with mp by divlia.
    replace ((yoe + era * 400) / 400) with era by divlia.
    replace (yoe + era * 400 - era * 400) with yoe by lia.
    repeat split; lia.
  - destruct (Z.leb_spec (mp - 9) 2); [|lia].
    replace ((mp - 9 + 9) mod 12) with mp by divlia.
    replace (yoe + era * 400 + 1 - 1) with (yoe + era * 400) by lia.
    replace ((yoe + era * 400) / 400) with era by divlia.
    replace (yoe + era * 400 - era * 400) with yoe by lia.
    repeat split; lia.
Qed.

(** The microsecond count of the datetime built from a count is that
    count. *)
Lemma to_us_of_us (n : Z) : to_us (of_us n) = n.
Proof.
  unfold of_us. cbv zeta.
  destruct (civil_from_days (n / us_per_day)) as [[y m] d] eqn:E.
  apply days_from_civil_from_days in E. destruct E as (E & _ & _).
  unfold to_us. cbn [year month day hour minute second microsecond].
  rewrite E. unfold us_per_day, us_per_second.
  change (86400 * 1000000) with 86400000000. divlia.
Qed.

(** The fields of a datetime built from a count are in range. *)
Lemma of_us_fields (n : Z) :
  1 <= month (of_us n) <= 12 /\ 1 <= day (of_us n) <= 31 /\
  0 <= hour (of_us n) < 24 /\ 0 <= minute (of_us n) < 60 /\
  0 <= second (of_us n) < 60 /\ 0 <= microsecond (of_us n) < 1000000.
Proof.
  unfold of_us. cbv zeta.
  destruct (civil_from_days (n / us_per_day)) as [[y m] d] eqn:E.
  apply days_from_civil_from_days in E. destruct E as (_ & Hm & Hd).
  cbn [year month day hour minute second microsecond].
  unfold us_per_day, us_per_second.
  change (86400 * 1000000) with 86400000000.
  repeat split; try lia; divlia.
Qed.

(** A checked result is the date itself, and lies in the range. *)
Lemma checked_ok (t r : datetime) :
  checked t = Ok r <-> r = t /\ in_range t = true.
Proof.
  unfold checked. destruct (in_range t); split.
  - intros E. injection E as <-. now split.
  - now intros [-> _].
  - discriminate.
  - intros [_ E]. discriminate E.
Qed.

Lemma checked_raises (t : datetime) (e : exn) :
  checked t = Raise e -> e = OverflowError /\ in_range t = false.
Proof.
  unfold checked. destruct (in_range t); [discriminate|].
  intros E. injection E as <-. now split.
Qed.

(** A sum that does not overflow lies [delta] after [t]. *)
Lemma dt_add_ok (t r : datetime) (delta : timedelta) :
  dt_add t delta = Ok r -> to_us r = to_us t + delta.
Proof.
  unfold dt_add. intros H. apply checked_ok in H. destruct H as [-> _].
  apply to_us_of_us.
Qed.

Lemma dt_sub_delta_ok (t r : datetime) (delta : timedelta) :
  dt_sub_delta t delta = Ok r -> to_us r = to_us t - delta.
Proof.
  unfold dt_sub_delta. intros H. apply checked_ok in H. destruct H as [-> _].
  apply to_us_of_us.
Qed.

Lemma dt_diff_add (t r : datetime) (delta : timedelta) :
  dt_add t delta = Ok r -> dt_diff r t = delta.
Proof. intros H. apply dt_add_ok in H. unfold dt_diff. lia. Qed.

Lemma dt_diff_sub_delta (t r : datetime) (delta : timedelta) :
  dt_sub_delta t delta = Ok r -> dt_diff t r = delta.
Proof. intros H. apply dt_sub_delta_ok in H. unfold dt_diff. lia. Qed.

(** Two dates with the same count of microseconds give the same sum. *)
Lemma dt_add_same_count (t t' : datetime) (delta delta' : timedelta) :
  to_us t + delta = to_us t' + delta' -> dt_add t delta = dt_add t' delta'.
Proof. unfold dt_add. now intros ->. Qed.

Lemma timedelta_seconds_ok (s : Q) (delta : timedelta) :
  timedelta_seconds s = Ok delta <->
  delta = timedelta_of_seconds s /\ delta_in_range delta = true.
Proof.
  unfold timedelta_seconds. cbv zeta.
  destruct (delta_in_range (timedelta_of_seconds s)) eqn:E; split.
  - intros H. injection H as <-. now split.
  - now intros [-> _].
  - discriminate.
  - intros [-> H]. congruence.
Qed.

(** Rounding half to even stays within half a unit. *)
Lemma divide_and_round_bounds (a b : Z) :
  0 < b -> 2 * a - b <= 2 * b * divide_and_round a b <= 2 * a + b.
Proof.
  intros Hb. unfold divide_and_round.
  pose proof (Z.div_mod a b ltac:(lia)) as Hdm.
  pose proof (Z.mod_pos_bound a b Hb) as Hmod.
  destruct ((b <? 2 * (a mod b)) || ((2 * (a mod b) =? b) && Z.odd (a / b))) eqn:E.
  - apply orb_true_iff in E. destruct E as [E|E].
    + apply Z.ltb_lt in E. nia.
    + apply andb_true_iff in E. destruct E as [E _]. apply Z.eqb_eq in E. nia.
  - apply orb_false_iff in E. destruct E as [E _]. apply Z.ltb_ge in E. nia.
Qed.

Lemma divide_and_round_exact (q b : Z) : 0 < b -> divide_and_round (q * b) b = q.
Proof.
  intros Hb. unfold divide_and_round.
  rewrite Z.div_mul, Z.mod_mul by lia. cbn [Z.mul].
  destruct (Z.ltb_spec b 0); [lia|].
  destruct (Z.eqb_spec 0 b); [lia|]. reflexivity.
Qed.

Lemma td_half_bounds (delta : timedelta) :
  0 <= delta -> 0 <= td_half delta <= delta.
Proof.
  intros H. unfold td_half.
  pose proof (divide_and_round_bounds delta 2 ltac:(lia)).
  destruct (Z.eq_dec delta 0) as [->|]; [cbv; split; discriminate|].
  destruct (Z.eq_dec delta 1) as [->|]; [cbv; split; discriminate|]. lia.
Qed.

Lemma timedelta_of_total_seconds (delta : timedelta) :
  timedelta_of_seconds (total_seconds delta) = delta.
Proof.
  unfold timedelta_of_seconds, total_seconds. cbn [Qnum Qden].
  unfold us_per_second. apply divide_and_round_exact. lia.
Qed.

End CalendarFacts.

(** ** What [set_times] stores *)

Module WindowFacts.
Import Datetime EarthObservation EarthObservationFacts Criteria CalendarFacts.
Local Open Scope Z_scope.
Local Open Scope string_scope.
Local Open Scope result_scope.

#[local] Opaque to_us of_us.

Section Window.

Variable Epoch : Type.
Variable epoch_to_datetime : Epoch -> datetime.
Variable epoch_of_str : string -> result Epoch.

Local Abbreviation set_times := (set_times Epoch epoch_to_datetime epoch_of_str).
Local Abbreviation as_datetime :=
  (as_datetime Epoch epoch_to_datetime epoch_of_str).
Local Abbreviation truthy_time := (truthy_time Epoch).
Local Abbreviation built := (built Epoch epoch_to_datetime epoch_of_str).

Ltac stuck H :=
  unfold EarthObservation.set_times, EarthObservation.set_times_over in H;
  cbv zeta in H;
  repeat match goal with
         | E : EarthObservation.truthy_time _ _ = _ |- _ => rewrite E in H
         | E : EarthObservation.as_datetime _ _ _ _ = _ |- _ => rewrite E in H
         | E : in_t_duration _ _ = _ |- _ => rewrite E in H
         | E : truthy_float _ = _ |- _ => rewrite E in H
         end;
  cbn [andb bind as_seconds] in H; discriminate H.

(** A returned window was built by one of the three branches. *)
Lemma set_times_ok_inv (values : window_input Epoch) (w : TimeWindowProperties) :
  set_times values = Ok w -> built values w.
Proof.
  intros H.
  destruct (truthy_time (in_t_start _ values)) eqn:Hs,
           (truthy_time (in_t_end _ values)) eqn:He.
  - destruct (as_datetime (in_t_start _ values)) as [start|e] eqn:Hds;
      [|stuck H].
    destruct (as_datetime (in_t_end _ values)) as [stop|e] eqn:Hde;
      [|stuck H].
    rewrite (set_times_start_end _ _ _ values start stop Hs He Hds Hde) in H.
    destruct (dt_leb stop start) eqn:Hle; [discriminate|]. cbv zeta in H.
    destruct (mid_time start (total_seconds (dt_diff stop start)))
      as [mid|e] eqn:Hmid; [|discriminate]. cbn [bind] in H.
    injection H as <-.
    now apply (from_start_end _ _ _ values _ start stop mid).
  - destruct (in_t_duration _ values) as [d|] eqn:Hd; [|stuck H].
    destruct (truthy_float (Some d)) eqn:Hdt; [|stuck H].
    destruct (as_datetime (in_t_start _ values)) as [start|e] eqn:Hds;
      [|stuck H].
    rewrite (set_times_start_duration _ _ _ values start d Hs He Hd Hdt Hds)
      in H.
    destruct (timedelta_seconds d) as [delta|e] eqn:Hdelta; [|discriminate].
    apply timedelta_seconds_ok in Hdelta. destruct Hdelta as [-> Hr].
    cbn [bind] in H.
    destruct (dt_add start (timedelta_of_seconds d)) as [stop|e] eqn:Hstop;
      [|discriminate]. cbn [bind] in H.
    destruct (dt_add start (td_half (timedelta_of_seconds d)))
      as [mid|e] eqn:Hmid; [|discriminate]. cbn [bind] in H.
    injection H as <-.
    now apply (from_start_duration _ _ _ values _ start stop mid d).
  - destruct (in_t_duration _ values) as [d|] eqn:Hd; [|stuck H].
    destruct (truthy_float (Some d)) eqn:Hdt; [|stuck H].
    destruct (as_datetime (in_t_end _ values)) as [stop|e] eqn:Hde;
      [|stuck H].
    rewrite (set_times_end_duration _ _ _ values stop d Hs He Hd Hdt Hde)
      in H.
    destruct (timedelta_seconds d) as [delta|e] eqn:Hdelta; [|discriminate].
    apply timedelta_seconds_ok in Hdelta. destruct Hdelta as [-> Hr].
    cbn [bind] in H.
    destruct (dt_sub_delta stop (timedelta_of_seconds d))
      as [start|e] eqn:Hstart; [|discriminate]. cbn [bind] in H.
    destruct (dt_add start (td_half (timedelta_of_seconds d)))
      as [mid|e] eqn:Hmid; [|discriminate]. cbn [bind] in H.
    injection H as <-.
    now apply (from_end_duration _ _ _ values _ start stop mid d).
  - unfold EarthObservation.set_times, EarthObservation.set_times_over in H.
    cbv zeta in H. rewrite Hs, He in H.
    destruct (truthy_float (in_t_duration _ values)); discriminate.
Qed.

Lemma mid_time_ok (start mid : datetime) (d : Q) :
  mid_time start d = Ok mid <->
  delta_in_range (timedelta_of_seconds d) = true /\
  dt_add start (td_half (timedelta_of_seconds d)) = Ok mid.
Proof.
  unfold mid_time, timedelta_seconds. cbv zeta.
  destruct (delta_in_range (timedelta_of_seconds d)); cbn [bind]; split.
  - now split.
  - now intros [_ H].
  - discriminate.
  - intros [H _]. discriminate H.
Qed.

(** The mid-time of a returned window is the sum the code computes from
    its start and its duration. *)
Lemma window_mid (values : window_input Epoch) (w : TimeWindowProperties) :
  set_times values = Ok w -> mid_time (t_start w) (t_duration w) = Ok (t_mid w).
Proof.
  intros H. apply set_times_ok_inv in H.
  destruct H as [start stop mid _ _ _ _ _ Hmid ->
                |start stop mid d _ _ _ _ _ Hr _ Hmid ->
                |start stop mid d _ _ _ _ _ Hr _ Hmid ->];
    cbn [t_start t_mid t_duration]; [exact Hmid | |];
    apply mid_time_ok; now split.
Qed.

Lemma window_span (values : window_input Epoch)
  (w : TimeWindowProperties) :
  set_times values = Ok w ->
  dt_diff (t_end w) (t_start w) = timedelta_of_seconds (t_duration w) /\
  dt_diff (t_mid w) (t_start w) = td_half (timedelta_of_seconds (t_duration w)).
Proof.
  intros H. pose proof (window_mid values w H) as Hmid.
  apply mid_time_ok in Hmid. destruct Hmid as [_ Hmid].
  split; [|now apply dt_diff_add].
  apply set_times_ok_inv in H.
  destruct H as [start stop mid _ _ _ _ _ _ ->
                |start stop mid d _ _ _ _ _ _ Hstop _ ->
                |start stop mid d _ _ _ _ _ _ Hstart _ ->];
    cbn [t_start t_end t_duration].
  - now rewrite timedelta_of_total_seconds.
  - now apply dt_diff_add.
  - now apply dt_diff_sub_delta.
Qed.

Lemma dt_leb_iff (t1 t2 : datetime) : dt_leb t1 t2 = true <-> to_us t1 <= to_us t2.
Proof. unfold dt_leb. apply Z.leb_le. Qed.

Lemma dt_leb_false_iff (t1 t2 : datetime) :
  dt_leb t1 t2 = false <-> to_us t2 < to_us t1.
Proof. unfold dt_leb. apply Z.leb_gt. Qed.

Lemma td_half_below (delta : timedelta) : 0 < delta -> td_half delta < delta.
Proof.
  intros H. unfold td_half.
  pose proof (divide_and_round_bounds delta 2 ltac:(lia)).
  destruct (Z.eq_dec delta 1) as [->|]; [reflexivity|]. lia.
Qed.

Lemma ordered_core (s m e td : Z) :
  e - s = td -> m - s = td_half td -> 0 < td -> s < e /\ s <= m /\ m < e.
Proof.
  intros He Hm Hpos.
  pose proof (td_half_bounds td (Z.lt_le_incl _ _ Hpos)).
  pose proof (td_half_below td Hpos). lia.
Qed.

Lemma start_end_window (values : window_input Epoch) (w : TimeWindowProperties) :
  truthy_time (in_t_start _ values) = true ->
  truthy_time (in_t_end _ values) = true ->
  set_times values = Ok w ->
  dt_leb (t_end w) (t_start w) = false /\
  t_duration w = total_seconds (dt_diff (t_end w) (t_start w)).
Proof.
  intros Hs He H. apply set_times_ok_inv in H.
  destruct H as [start stop mid _ _ _ _ Hlt _ ->
                |start stop mid d _ He' _ _ _ _ _ _ _
                |start stop mid d Hs' _ _ _ _ _ _ _ _]; try congruence.
  split; [exact Hlt | reflexivity].
Qed.


(** X3: the guard [t_end <= t_start] is in the first branch only.  A start
    with a duration that [timedelta(seconds=t_duration)] turns into zero
    microseconds or fewer (a negative number of seconds, or a fraction of a
    microsecond) is accepted whenever the two sums stay within the range of
    the datetime type, and the stored [t_end] is then not after [t_start].
    This holds whatever the two float conversions of the library
    compute. *)
Theorem derived_end_is_not_guarded (to_timedelta : Q -> result timedelta)
  (to_seconds : timedelta -> Q) (values : window_input Epoch)
  (start stop mid : datetime) (d : Q) (delta : timedelta) :
  truthy_time (in_t_start _ values) = true ->
  truthy_time (in_t_end _ values) = false ->
  in_t_duration _ values = Some d ->
  truthy_float (Some d) = true ->
  as_datetime (in_t_start _ values) = Ok start ->
  to_timedelta d = Ok delta ->
  delta <= 0 ->
  dt_add start delta = Ok stop ->
  dt_add start (td_half delta) = Ok mid ->
  set_times_over Epoch epoch_to_datetime epoch_of_str to_timedelta to_seconds
    values
  = Ok (mkWindow start mid stop d) /\
  dt_leb stop start = true.
Proof.
  intros Hs He Hd Hdt Hds Hdelta Hneg Hstop Hmid. split.
  - rewrite (over_start_duration _ _ _ _ _ values start d) by assumption.
    rewrite Hdelta. cbn [bind]. rewrite Hstop. cbn [bind]. now rewrite Hmid.
  - apply dt_leb_iff. apply dt_add_ok in Hstop. lia.
Qed.

(** X4: when both times are supplied, a [t_duration] passed with them is
    not read: the result, window or error, is the same whatever it is. *)
Theorem supplied_duration_is_ignored (values : window_input Epoch)
  (d : option Q) :
  truthy_time (in_t_start _ values) = true ->
  truthy_time (in_t_end _ values) = true ->
  set_times (with_duration values d) = set_times values.
Proof.
  intros Hs He.
  unfold EarthObservation.set_times, EarthObservation.set_times_over,
    with_duration.
  cbn [in_t_start in_t_end in_t_duration]. now rewrite Hs, He.
Qed.

Lemma mid_time_rounded (start : datetime) (d : Q) :
  mid_time start (total_seconds (timedelta_of_seconds d)) = mid_time start d.
Proof.
  unfold mid_time, timedelta_seconds.
  now rewrite timedelta_of_total_seconds.
Qed.


End Window.


Lemma derived_end_is_not_guarded_witness :
  timedelta_seconds (-3600 # 1)%Q = Ok (-3600000000) /\
  -3600000000 <= 0 /\
  dt_add noon (-3600000000) = Ok (mkDatetime 2018 1 1 11 0 0 0) /\
  dt_add noon (td_half (-3600000000)) = Ok (mkDatetime 2018 1 1 11 30 0 0) /\
  forall (Epoch : Type) (epoch_to_datetime : Epoch -> datetime)
         (epoch_of_str : string -> result Epoch),
    EarthObservation.set_times Epoch epoch_to_datetime epoch_of_str
      (mkWindowInput Epoch (Some (VDatetime Epoch noon)) None
         (Some (-3600 # 1)%Q))
    = Ok (mkWindow noon (mkDatetime 2018 1 1 11 30 0 0)
            (mkDatetime 2018 1 1 11 0 0 0) (-3600 # 1)%Q) /\
    dt_leb (mkDatetime 2018 1 1 11 0 0 0) noon = true.
Proof.
  assert (Hdelta : timedelta_seconds (-3600 # 1)%Q = Ok (-3600000000))
    by (vm_compute; reflexivity).
  assert (Hneg : -3600000000 <= 0) by lia.
  assert (Hstop : dt_add noon (-3600000000)
                  = Ok (mkDatetime 2018 1 1 11 0 0 0))
    by (vm_compute; reflexivity).
  assert (Hmid : dt_add noon (td_half (-3600000000))
                 = Ok (mkDatetime 2018 1 1 11 30 0 0))
    by (vm_compute; reflexivity).
  split; [exact Hdelta|]. split; [exact Hneg|]. split; [exact Hstop|].
  split; [exact Hmid|]. intros Epoch to_dt of_str.
  exact (derived_end_is_not_guarded Epoch to_dt of_str timedelta_seconds
           total_seconds
           (mkWindowInput Epoch (Some (VDatetime Epoch noon)) None
              (Some (-3600 # 1)%Q))
           noon (mkDatetime 2018 1 1 11 0 0 0)
           (mkDatetime 2018 1 1 11 30 0 0) (-3600 # 1)%Q (-3600000000)
           eq_refl eq_refl eq_refl eq_refl eq_refl Hdelta Hneg Hstop Hmid).
Defined.

Lemma supplied_duration_is_ignored_witness :
  (forall Epoch : Type,
     EarthObservation.truthy_time Epoch (Some (VDatetime Epoch noon)) = true) /\
  forall (Epoch : Type) (epoch_to_datetime : Epoch -> datetime)
         (epoch_of_str : string -> result Epoch),
    EarthObservation.set_times Epoch epoch_to_datetime epoch_of_str
      (mkWindowInput Epoch (Some (VDatetime Epoch noon))
         (Some (VDatetime Epoch one_pm)) (Some (5 # 1)%Q))
    = EarthObservation.set_times Epoch epoch_to_datetime epoch_of_str
        (mkWindowInput Epoch (Some (VDatetime Epoch noon))
           (Some (VDatetime Epoch one_pm)) None).
Proof.
  split; [reflexivity|]. intros Epoch to_dt of_str.
  exact (supplied_duration_is_ignored Epoch to_dt of_str
           (mkWindowInput Epoch (Some (VDatetime Epoch noon))
              (Some (VDatetime Epoch one_pm)) None)
           (Some (5 # 1)%Q) eq_refl eq_refl).
Defined.


End WindowFacts.

(** ** Which arguments [AccessConstraints] accepts *)

Module ConstraintsFacts.
Import EarthObservation EarthObservationFacts Criteria.
Local Open Scope Q_scope.
Local Open Scope string_scope.

Lemma min_field_spec (mn : option Q) :
  min_field mn =
  match mn with
  | Some m => confloat 0 90 m
  | None => Ok 0
  end.
Proof. destruct mn; reflexivity. Qed.

Lemma confloat_spec (v : Q) :
  (in_rangeb v = true /\ confloat 0 90 v = Ok v) \/
  (in_rangeb v = false /\ exists msg, confloat 0 90 v = Raise (ValueError msg)).
Proof.
  unfold in_rangeb, confloat.
  destruct (Qle_bool 0 v), (Qle_bool v 90); cbn; eauto.
Qed.

Lemma validator_some (validator : Q -> option Q -> result Q) (x m : Q) :
  validator = validate_look_angle \/ validator = validate_elevation ->
  if negb (Qeq_bool m 0) && Qle_bool m x
  then validator x (Some m) = Ok x
  else exists msg, validator x (Some m) = Raise (ValueError msg).
Proof.
  intros [-> | ->]; cbn;
    destruct (Qeq_bool m 0), (Qle_bool m x); cbn; try reflexivity;
    eexists; reflexivity.
Qed.

Lemma validator_none (validator : Q -> option Q -> result Q) (x : Q) :
  validator = validate_look_angle \/ validator = validate_elevation ->
  exists msg, validator x None = Raise (ValueError msg).
Proof. intros [-> | ->]; eexists; reflexivity. Qed.

(** The outcome of a minimum and its maximum, against the criterion. *)
Lemma pair_spec (validator : Q -> option Q -> result Q) (mn mx : option Q) :
  validator = validate_look_angle \/ validator = validate_elevation ->
  if pair_acceptedb mn mx
  then min_field mn = Ok (effective mn 0) /\
       max_field mx validator (min_field mn) = Ok (effective mx 90)
  else (exists msg, min_field mn = Raise (ValueError msg)) \/
       (exists msg, max_field mx validator (min_field mn)
                    = Raise (ValueError msg)).
Proof.
  intros Hv. unfold pair_acceptedb. rewrite min_field_spec.
  destruct mn as [m|]; cbn [effective].
  - destruct (confloat_spec m) as [[Hr Hc]|[Hr [msg Hc]]]; rewrite Hr, Hc;
      cbn [andb]; [|left; now exists msg].
    destruct mx as [x|]; [|split; reflexivity].
    unfold max_field, field.
    destruct (confloat_spec x) as [[Hrx Hcx]|[Hrx [msgx Hcx]]];
      rewrite Hrx, Hcx; cbn [andb bind known]; [|right; now exists msgx].
    pose proof (validator_some validator x m Hv) as Hval.
    destruct (negb (Qeq_bool m 0) && Qle_bool m x).
    + now split.
    + right. exact Hval.
  - cbn [andb]. destruct mx as [x|]; [|split; reflexivity].
    unfold max_field, field.
    destruct (confloat_spec x) as [[Hrx Hcx]|[Hrx [msgx Hcx]]];
      rewrite Hrx, Hcx; cbn [andb bind known negb]; [|right; now exists msgx].
    right. pose proof (validator_some validator x 0 Hv) as Hval. exact Hval.
Qed.


Lemma ascdsc_field_spec (s : option string) :
  match ascdsc_of s with
  | Some a => field s either AscendingDescending_of = Ok a
  | None => field s either AscendingDescending_of = Raise TypeError
  end.
Proof.
  destruct s as [v|]; cbn; [|reflexivity].
  unfold AscendingDescending_of.
  destruct (v =? "ascending"), (v =? "descending"), (v =? "either"); cbn;
    reflexivity.
Qed.

Lemma look_direction_field_spec (s : option string) :
  match look_direction_of s with
  | Some a => field s look_either LookDirection_of = Ok a
  | None => field s look_either LookDirection_of = Raise TypeError
  end.
Proof.
  destruct s as [v|]; cbn; [|reflexivity].
  unfold LookDirection_of.
  destruct (v =? "left"), (v =? "right"), (v =? "either"); cbn;
    reflexivity.
Qed.

(** The field pass builds the object exactly when all six fields pass. *)
Lemma init_cases (kw : constraints_input) :
  let fa := field (in_ascdsc kw) either AscendingDescending_of in
  let fd := field (in_look_direction kw) look_either LookDirection_of in
  let l1 := min_field (in_look_angle_min kw) in
  let l2 := max_field (in_look_angle_max kw) validate_look_angle l1 in
  let e1 := min_field (in_elevation_min kw) in
  let e2 := max_field (in_elevation_max kw) validate_elevation e1 in
  match fa, fd, l1, l2, e1, e2 with
  | Ok a, Ok d, Ok lmin, Ok lmax, Ok emin, Ok emax =>
      AccessConstraints_init kw
      = Valid (mkAccessConstraints a d lmin lmax emin emax)
  | _, _, _, _, _, _ =>
      AccessConstraints_init kw
      = ValidationError
          (errors_of "ascdsc" fa ++ errors_of "look_direction" fd
           ++ errors_of "look_angle_min" l1 ++ errors_of "look_angle_max" l2
           ++ errors_of "elevation_min" e1 ++ errors_of "elevation_max" e2)
  end.
Proof.
  cbv zeta. fold_fields kw.
  destruct (field (in_ascdsc kw) either AscendingDescending_of),
    (field (in_look_direction kw) look_either LookDirection_of),
    (min_field (in_look_angle_min kw)),
    (max_field (in_look_angle_max kw) validate_look_angle _),
    (min_field (in_elevation_min kw)),
    (max_field (in_elevation_max kw) validate_elevation _); reflexivity.
Qed.

Lemma acceptance (kw : constraints_input) :
  (forall obj, AccessConstraints_init kw = Valid obj <->
               constraints_of kw = Some obj) /\
  (constraints_of kw = None <->
   exists errors, AccessConstraints_init kw = ValidationError errors).
Proof.
  pose proof (init_cases kw) as Hinit. cbv zeta in Hinit.
  pose proof (ascdsc_field_spec (in_ascdsc kw)) as Ha.
  pose proof (look_direction_field_spec (in_look_direction kw)) as Hd.
  pose proof (pair_spec validate_look_angle (in_look_angle_min kw)
                (in_look_angle_max kw) (or_introl eq_refl)) as Hl.
  pose proof (pair_spec validate_elevation (in_elevation_min kw)
                (in_elevation_max kw) (or_intror eq_refl)) as He.
  unfold constraints_of.
  destruct (ascdsc_of (in_ascdsc kw)) as [a|]; rewrite Ha in Hinit;
  (destruct (look_direction_of (in_look_direction kw)) as [d|];
   rewrite Hd in Hinit);
  (destruct (pair_acceptedb (in_look_angle_min kw) (in_look_angle_max kw));
    [destruct Hl as [Hl1 Hl2]; rewrite Hl2, Hl1 in Hinit
    |destruct Hl as [[msgl Hl]|[msgl Hl]]; rewrite Hl in Hinit]);
  (destruct (pair_acceptedb (in_elevation_min kw) (in_elevation_max kw));
    [destruct He as [He1 He2]; rewrite He2, He1 in Hinit
    |destruct He as [[msge He]|[msge He]]; rewrite He in Hinit]);
  cbn [andb];
  repeat match type of Hinit with
         | context [match ?r with Ok _ => _ | Raise _ => _ end] => destruct r
         end;
  rewrite Hinit;
  (split; [intros obj; split; intros H; (discriminate || congruence)
          |split; [intros H; (discriminate || (eexists; reflexivity))
                  |intros [errors H]; (discriminate || reflexivity)]]).
Qed.


(** X6: the constructor of [AccessConstraints] returns an object exactly
    when both enumeration values are known (or not passed) and both
    minimum/maximum pairs are accepted: what is passed lies in [0, 90], and
    a passed maximum comes with a non-zero minimum not above it.  The object
    then holds each argument, or the default where none was passed; in every
    other case the constructor raises a validation error. *)
Theorem access_constraints_acceptance (kw : constraints_input) :
  (forall obj, AccessConstraints_init kw = Valid obj <->
               constraints_of kw = Some obj) /\
  (constraints_of kw = None <->
   exists errors, AccessConstraints_init kw = ValidationError errors).
Proof. exact (acceptance kw). Qed.

Lemma in_rangeb_iff (v : Q) : in_rangeb v = true <-> 0 <= v /\ v <= 90.
Proof.
  unfold in_rangeb. rewrite andb_true_iff, !Qle_bool_iff. tauto.
Qed.

Lemma pair_accepted_bounds (mn mx : option Q) :
  pair_acceptedb mn mx = true ->
  0 <= effective mn 0 /\ effective mn 0 <= effective mx 90 /\
  effective mx 90 <= 90.
Proof.
  unfold pair_acceptedb. intros H. apply andb_true_iff in H.
  destruct H as [Hmin Hmax].
  assert (Hm : 0 <= effective mn 0 /\ effective mn 0 <= 90).
  { destruct mn as [m|]; cbn; [now apply in_rangeb_iff | split; discriminate]. }
  destruct mx as [x|]; cbn [effective].
  - apply andb_true_iff in Hmax. destruct Hmax as [Hmax Hle].
    apply andb_true_iff in Hmax. destruct Hmax as [Hx _].
    apply in_rangeb_iff in Hx. apply Qle_bool_iff in Hle. tauto.
  - split; [tauto|]. split; [tauto | apply Qle_refl].
Qed.

(** X7: every constructed [AccessConstraints] has
    [0 <= look_angle_min <= look_angle_max <= 90] and
    [0 <= elevation_min <= elevation_max <= 90]. *)
Theorem access_constraints_bounds (kw : constraints_input)
  (obj : AccessConstraints) :
  AccessConstraints_init kw = Valid obj ->
  (0 <= look_angle_min obj /\ look_angle_min obj <= look_angle_max obj /\
   look_angle_max obj <= 90) /\
  (0 <= elevation_min obj /\ elevation_min obj <= elevation_max obj /\
   elevation_max obj <= 90).
Proof.
  intros H. apply (proj1 (acceptance kw)) in H.
  unfold constraints_of in H.
  destruct (ascdsc_of (in_ascdsc kw)); [|discriminate].
  destruct (look_direction_of (in_look_direction kw)); [|discriminate].
  destruct (pair_acceptedb (in_look_angle_min kw) (in_look_angle_max kw))
    eqn:Hl; [|discriminate].
  destruct (pair_acceptedb (in_elevation_min kw) (in_elevation_max kw))
    eqn:He; [|discriminate].
  cbn [andb] in H. injection H as <-.
  cbn [look_angle_min look_angle_max elevation_min elevation_max].
  split; now apply pair_accepted_bounds.
Qed.

(** X8: the validators compare with [>], so a maximum equal to a non-zero
    minimum is accepted, although the message asks for a minimum less than
    the maximum. *)
Theorem equal_minimum_and_maximum_accepted (v : Q) :
  0 < v -> v <= 90 ->
  AccessConstraints_init
    (mkConstraintsInput None None (Some v) (Some v) (Some v) (Some v))
  = Valid (mkAccessConstraints either look_either v v v v).
Proof.
  intros Hpos Hle. apply (proj1 (acceptance _)).
  unfold constraints_of.
  cbn [in_ascdsc in_look_direction in_look_angle_min in_look_angle_max
       in_elevation_min in_elevation_max ascdsc_of look_direction_of].
  assert (Hp : pair_acceptedb (Some v) (Some v) = true).
  { unfold pair_acceptedb. cbn [effective].
    assert (Hr : in_rangeb v = true)
      by (apply in_rangeb_iff; split; [now apply Qlt_le_weak | assumption]).
    assert (Hz : Qeq_bool v 0 = false).
    { destruct (Qeq_bool v 0) eqn:E; [|reflexivity].
      apply Qeq_bool_iff in E. rewrite E in Hpos.
      now apply Qlt_irrefl in Hpos. }
    assert (Hvv : Qle_bool v v = true) by (apply Qle_bool_iff, Qle_refl).
    now rewrite Hr, Hz, Hvv. }
  now rewrite Hp.
Qed.

Lemma field_raises_supplied {I A : Type} (supplied : option I) (default : A)
  (validate : I -> result A) (e : exn) :
  field supplied default validate = Raise e -> supplied <> None.
Proof. destruct supplied; [discriminate | discriminate]. Qed.

Lemma enum_raises (s : option string) (e : exn) :
  (field s either AscendingDescending_of = Raise e -> e = TypeError) /\
  (field s look_either LookDirection_of = Raise e -> e = TypeError).
Proof.
  split.
  - pose proof (ascdsc_field_spec s) as H.
    destruct (ascdsc_of s); congruence.
  - pose proof (look_direction_field_spec s) as H.
    destruct (look_direction_of s); congruence.
Qed.

Lemma min_field_raises (mn : option Q) (e : exn) :
  min_field mn = Raise e -> exists msg, e = ValueError msg.
Proof.
  rewrite min_field_spec. destruct mn as [m|]; [|discriminate].
  destruct (confloat_spec m) as [[_ H]|[_ [msg H]]]; rewrite H; [discriminate|].
  intros E. injection E as <-. now exists msg.
Qed.

Lemma name_if_in {A : Type} (argument : option A) (name : string) :
  argument <> None -> In name (name_if argument name).
Proof. destruct argument; [now left | congruence]. Qed.


Lemma max_field_raises (mx : option Q) (validator : Q -> option Q -> result Q)
  (minimum : result Q) (e : exn) :
  validator = validate_look_angle \/ validator = validate_elevation ->
  max_field mx validator minimum = Raise e -> exists msg, e = ValueError msg.
Proof.
  intros Hv. destruct mx as [x|]; [|discriminate].
  apply max_field_value_error.
  destruct Hv as [-> | ->];
    [apply validate_look_angle_raises | apply validate_elevation_raises].
Qed.


Lemma access_constraints_bounds_witness :
  AccessConstraints_init
    (mkConstraintsInput None None (Some 10) (Some 45) None None)
  = Valid (mkAccessConstraints either look_either 10 45 0 90) /\
  (0 <= 10 /\ 10 <= 45 /\ 45 <= 90) /\ (0 <= 0 /\ 0 <= 90 /\ 90 <= 90).
Proof.
  assert (H : AccessConstraints_init
                (mkConstraintsInput None None (Some 10) (Some 45) None None)
              = Valid (mkAccessConstraints either look_either 10 45 0 90))
    by reflexivity.
  exact (conj H (access_constraints_bounds _ _ H)).
Defined.

Lemma equal_minimum_and_maximum_accepted_witness :
  0 < 45 /\ 45 <= 90 /\
  AccessConstraints_init
    (mkConstraintsInput None None (Some 45) (Some 45) (Some 45) (Some 45))
  = Valid (mkAccessConstraints either look_either 45 45 45 45).
Proof.
  assert (H1 : 0 < 45) by reflexivity.
  assert (H2 : 45 <= 90) by (vm_compute; discriminate).
  exact (conj H1 (conj H2 (equal_minimum_and_maximum_accepted 45 H1 H2))).
Defined.


End ConstraintsFacts.

(** ** The enumerations *)

Module EnumFacts.
Import EarthObservation Enums.
Local Open Scope string_scope.

(** X10: for [ScheduleStatus], [AscendingDescending] and [LookDirection],
    validating the value of a member gives that member back, and a string is
    accepted exactly when it is the value of a member: no two members share
    a value, and no other spelling is accepted. *)
Theorem enumerations_round_trip :
  (forall m, ScheduleStatus_of (ScheduleStatus_value m) = Ok m) /\
  (forall m, AscendingDescending_of (AscendingDescending_value m) = Ok m) /\
  (forall m, LookDirection_of (LookDirection_value m) = Ok m) /\
  (forall s m, ScheduleStatus_of s = Ok m <-> s = ScheduleStatus_value m) /\
  (forall s m, AscendingDescending_of s = Ok m <->
               s = AscendingDescending_value m) /\
  (forall s m, LookDirection_of s = Ok m <-> s = LookDirection_value m).
Proof.
  assert (R1 : forall m, ScheduleStatus_of (ScheduleStatus_value m) = Ok m)
    by (intros []; reflexivity).
  assert (R2 : forall m,
             AscendingDescending_of (AscendingDescending_value m) = Ok m)
    by (intros []; reflexivity).
  assert (R3 : forall m, LookDirection_of (LookDirection_value m) = Ok m)
    by (intros []; reflexivity).
  repeat split; trivial; try (intros ->; trivial).
  - unfold ScheduleStatus_of.
    destruct (String.eqb_spec s "not_scheduled") as [->|];
      [intros E; injection E as <-; reflexivity|].
    destruct (String.eqb_spec s "scheduled") as [->|];
      [intros E; injection E as <-; reflexivity | discriminate].
  - unfold AscendingDescending_of.
    destruct (String.eqb_spec s "ascending") as [->|];
      [intros E; injection E as <-; reflexivity|].
    destruct (String.eqb_spec s "descending") as [->|];
      [intros E; injection E as <-; reflexivity|].
    destruct (String.eqb_spec s "either") as [->|];
      [intros E; injection E as <-; reflexivity | discriminate].
  - unfold LookDirection_of.
    destruct (String.eqb_spec s "left") as [->|];
      [intros E; injection E as <-; reflexivity|].
    destruct (String.eqb_spec s "right") as [->|];
      [intros E; injection E as <-; reflexivity|].
    destruct (String.eqb_spec s "either") as [->|];
      [intros E; injection E as <-; reflexivity | discriminate].
Qed.

End EnumFacts.

(** ** [center_ecef] beyond the derived case *)

Module CenterFacts.
Import EarthObservation EarthObservationFacts Criteria.
Local Open Scope Q_scope.
Local Open Scope string_scope.

Section Center.
Variable sGEODtoECEF : list Q -> bool -> Q * Q * Q.

Lemma known_center (center : option (list Q)) :
  known (required_field center (conlist 2 3))
  = if center_valid center then center else None.
Proof.
  destruct center as [c|]; [|reflexivity]. cbn [required_field center_valid].
  unfold conlist.
  destruct (Nat.ltb_spec (List.length c) 2), (Nat.leb_spec 2 (List.length c));
    try lia; cbn [andb]; [reflexivity|].
  destruct (Nat.ltb_spec 3 (List.length c)), (Nat.leb_spec (List.length c) 3);
    try lia; reflexivity.
Qed.

(** X11: when [center_ecef] is missing or empty and [center] is missing or
    failed its own validation (fewer than 2 or more than 3 items), the
    validator reads [values['center']] and the construction of a [Collect]
    or a [Contact] ends in a [KeyError], not in a validation error. *)
Theorem missing_center_is_a_key_error (center center_ecef : option (list Q)) :
  truthy_list center_ecef = false -> center_valid center = false ->
  Collect_center_ecef sGEODtoECEF center center_ecef = Raise (KeyError "center")
  /\
  Contact_center_ecef sGEODtoECEF center center_ecef = Raise (KeyError "center").
Proof.
  intros Hce Hc. unfold Collect_center_ecef, Contact_center_ecef.
  rewrite known_center, Hc.
  destruct center_ecef as [[|x rest]|]; try discriminate; split; reflexivity.
Qed.

Lemma conlist_3_ok (v out : list Q) :
  conlist 3 3 v = Ok out -> out = v /\ List.length v = 3%nat.
Proof.
  unfold conlist.
  destruct (Nat.ltb_spec (List.length v) 3); [discriminate|].
  destruct (Nat.ltb_spec 3 (List.length v)); [discriminate|].
  intros E. injection E as <-. split; [reflexivity | lia].
Qed.

Lemma conlist_3_raise (v : list Q) :
  List.length v <> 3%nat -> exists msg, conlist 3 3 v = Raise (ValueError msg).
Proof.
  intros H. unfold conlist.
  destruct (Nat.ltb_spec (List.length v) 3); [eexists; reflexivity|].
  destruct (Nat.ltb_spec 3 (List.length v)); [eexists; reflexivity | lia].
Qed.

(** X12: a [center_ecef] that is accepted, derived or supplied, has exactly
    three items; a supplied non-empty list of another length is rejected
    with a [ValueError]. *)
Theorem center_ecef_has_three_items (center center_ecef : option (list Q)) :
  (forall out,
     Collect_center_ecef sGEODtoECEF center center_ecef = Ok out \/
     Contact_center_ecef sGEODtoECEF center center_ecef = Ok out ->
     List.length out = 3%nat) /\
  (forall supplied,
     center_ecef = Some supplied -> supplied <> [] ->
     List.length supplied <> 3%nat ->
     exists msg,
       Collect_center_ecef sGEODtoECEF center center_ecef
       = Raise (ValueError msg) /\
       Contact_center_ecef sGEODtoECEF center center_ecef
       = Raise (ValueError msg)).
Proof.
  split.
  - intros out H. unfold Collect_center_ecef, Contact_center_ecef in H.
    destruct H as [H|H].
    + destruct (Collect_set_center_ecef sGEODtoECEF center_ecef _) as [v|e];
        [|discriminate].
      cbn [bind] in H. apply conlist_3_ok in H. destruct H as [-> Hl]. exact Hl.
    + destruct (Contact_set_center_ecef sGEODtoECEF center_ecef _) as [v|e];
        [|discriminate].
      cbn [bind] in H. apply conlist_3_ok in H. destruct H as [-> Hl]. exact Hl.
  - intros supplied -> Hne Hlen. destruct supplied as [|x rest]; [congruence|].
    destruct (conlist_3_raise (x :: rest) Hlen) as [msg Hmsg].
    exists msg. unfold Collect_center_ecef, Contact_center_ecef.
    cbn [Collect_set_center_ecef Contact_set_center_ecef bind].
    now rewrite Hmsg.
Qed.

(** X13: a supplied non-empty [center_ecef] is never compared with
    [center]: the outcome for the field is the same for any [center], valid,
    invalid or missing, and for any conversion function; with three items it
    is the supplied list. *)
Theorem supplied_center_ecef_is_not_checked_against_center
  (center_ecef : list Q) (center center' : option (list Q))
  (other : list Q -> bool -> Q * Q * Q) :
  center_ecef <> [] ->
  Collect_center_ecef sGEODtoECEF center (Some center_ecef)
  = Collect_center_ecef other center' (Some center_ecef) /\
  Contact_center_ecef sGEODtoECEF center (Some center_ecef)
  = Contact_center_ecef other center' (Some center_ecef) /\
  (List.length center_ecef = 3%nat ->
   Collect_center_ecef sGEODtoECEF center (Some center_ecef) = Ok center_ecef).
Proof.
  intros Hne. destruct center_ecef as [|x rest]; [congruence|].
  repeat split. intros Hlen.
  now apply (supplied_is_kept sGEODtoECEF center (x :: rest)).
Qed.

End Center.

Lemma missing_center_is_a_key_error_witness :
  truthy_list (Some (@nil Q)) = false /\ center_valid (Some [10]) = false /\
  forall sGEODtoECEF : list Q -> bool -> Q * Q * Q,
    Collect_center_ecef sGEODtoECEF (Some [10]) (Some [])
    = Raise (KeyError "center") /\
    Contact_center_ecef sGEODtoECEF (Some [10]) (Some [])
    = Raise (KeyError "center").
Proof.
  split; [reflexivity|]. split; [reflexivity|]. intros geod.
  exact (missing_center_is_a_key_error geod (Some [10]) (Some [])
           eq_refl eq_refl).
Defined.

Lemma supplied_center_ecef_is_not_checked_against_center_witness :
  List.length [1; 2; 3] = 3%nat /\
  forall sGEODtoECEF : list Q -> bool -> Q * Q * Q,
    Collect_center_ecef sGEODtoECEF None (Some [1; 2; 3]) = Ok [1; 2; 3].
Proof.
  split; [reflexivity|]. intros geod.
  assert (Hne : [1; 2; 3] <> @nil Q) by discriminate.
  destruct (supplied_center_ecef_is_not_checked_against_center geod
              [1; 2; 3] None None geod Hne) as (_ & _ & H).
  exact (H eq_refl).
Defined.
End CenterFacts.

(** ** [StrUUID4]: what is rejected *)

Module IdentifiersFacts.
Import EarthObservation Identifiers.
Local Open Scope string_scope.

(** *** Cleaning only removes characters *)

Lemma remove_from_length (old : string) (s : string) :
  forall skip, (String.length (remove_from old skip s) <= String.length s)%nat.
Proof.
  induction s as [|c rest IH]; intros skip; cbn [remove_from String.length].
  - lia.
  - destruct skip as [|k].
    + destruct (prefix old (String c rest)); cbn [String.length];
        [specialize (IH (String.length old - 1)%nat) | specialize (IH 0%nat)];
        lia.
    + specialize (IH k). lia.
Qed.

Lemma lstrip_length (chars s : string) :
  (String.length (lstrip chars s) <= String.length s)%nat.
Proof.
  induction s as [|c rest IH]; cbn [lstrip String.length]; [lia|].
  destruct (mem c chars); cbn [String.length]; lia.
Qed.

Lemma rstrip_length (chars s : string) :
  (String.length (rstrip chars s) <= String.length s)%nat.
Proof.
  induction s as [|c rest IH]; cbn [rstrip String.length]; [lia|].
  destruct (rstrip chars rest) eqn:E.
  - destruct (mem c chars); cbn [String.length]; lia.
  - cbn [String.length] in *. lia.
Qed.

Lemma clean_length (s : string) :
  (String.length (clean s) <= String.length s)%nat.
Proof.
  unfold clean, remove_all, strip.
  pose proof (remove_from_length "urn:" s 0).
  pose proof (remove_from_length "uuid:" (remove_from "urn:" 0 s) 0).
  pose proof (lstrip_length "{}" (remove_from "uuid:" 0 (remove_from "urn:" 0 s))).
  pose proof (rstrip_length "{}"
                (lstrip "{}" (remove_from "uuid:" 0 (remove_from "urn:" 0 s)))).
  pose proof (remove_from_length "-"
                (rstrip "{}" (lstrip "{}"
                   (remove_from "uuid:" 0 (remove_from "urn:" 0 s)))) 0).
  lia.
Qed.

Section ValidateFacts.
Variable int16 : string -> option Z.

Local Abbreviation validate := (StrUUID4_validate int16).

(** What [UUID] raises is a [ValueError]. *)
Lemma UUID_raises (hex : string) (version : Z) (e : exn) :
  UUID int16 hex version = Raise e -> exists msg, e = ValueError msg.
Proof.
  unfold UUID.
  destruct (negb (String.length (clean hex) =? 32)%nat);
    [intros H; injection H as <-; eexists; reflexivity|].
  destruct (int16 (clean hex)) as [n|];
    [|intros H; injection H as <-; eexists; reflexivity].
  destruct (negb ((0 <=? n)%Z && (n <? 2 ^ 128)%Z));
    [intros H; injection H as <-; eexists; reflexivity|].
  destruct (negb ((1 <=? version)%Z && (version <=? 5)%Z));
    [intros H; injection H as <-; eexists; reflexivity | discriminate].
Qed.

Lemma validate_cases (v : raw) :
  (exists s n, v = RStr s /\ UUID int16 s 4 = Ok n /\
               validate v = Ok (uuid_str n)) \/
  validate v = Raise (not_uuid4 v).
Proof.
  destruct v as [s|r]; [|right; reflexivity].
  unfold StrUUID4_validate.
  destruct (UUID int16 s 4) as [n|e] eqn:E; cbn [bind].
  - left. now exists s, n.
  - right. apply UUID_raises in E. destruct E as [msg ->]. reflexivity.
Qed.

Lemma UUID_ok (hex : string) (n : Z) :
  UUID int16 hex 4 = Ok n ->
  exists m, String.length (clean hex) = 32%nat /\ int16 (clean hex) = Some m /\
            (0 <= m < 2 ^ 128)%Z /\ n = set_version 4 m.
Proof.
  unfold UUID.
  destruct (String.length (clean hex) =? 32)%nat eqn:El; [|discriminate].
  cbn [negb]. destruct (int16 (clean hex)) as [m|]; [|discriminate].
  destruct ((0 <=? m)%Z && (m <? 2 ^ 128)%Z) eqn:Er; [|discriminate].
  cbn. intros H. injection H as <-. exists m.
  apply Nat.eqb_eq in El. apply andb_true_iff in Er. destruct Er as [E0 E1].
  apply Z.leb_le in E0. apply Z.ltb_lt in E1. repeat split; trivial.
Qed.

Lemma validate_short (s : string) :
  (String.length s < 32)%nat -> validate (RStr s) = Raise (not_uuid4 (RStr s)).
Proof.
  intros Hlen.
  destruct (validate_cases (RStr s)) as [(s' & n & Hs & Hu & _)|Hr];
    [|exact Hr].
  injection Hs as <-. apply UUID_ok in Hu. destruct Hu as (m & Hl & _).
  pose proof (clean_length s). lia.
Qed.

(** X14: [StrUUID4.validate] raises one error only, the [ValueError] that
    quotes the value; it raises it for every value that is not a string and
    for every string of fewer than 32 characters, the empty string
    included. *)
Theorem StrUUID4_rejects (v : raw) :
  (forall e, validate v = Raise e -> e = not_uuid4 v) /\
  (forall r, v = ROther r -> validate v = Raise (not_uuid4 v)) /\
  (forall s, v = RStr s -> (String.length s < 32)%nat ->
             validate v = Raise (not_uuid4 v)).
Proof.
  split; [|split].
  - intros e H. destruct (validate_cases v) as [(s & n & _ & _ & Hok)|Hr];
      congruence.
  - intros r ->. reflexivity.
  - intros s ->. apply validate_short.
Qed.

End ValidateFacts.
End IdentifiersFacts.

(** ** The version and variant bits *)

Module UuidBits.
Import Identifiers.
Local Open Scope Z_scope.

Lemma small_cases (k : Z) (P : Z -> Prop) :
  0 <= k < 16 ->
  P 0 -> P 1 -> P 2 -> P 3 -> P 4 -> P 5 -> P 6 -> P 7 ->
  P 8 -> P 9 -> P 10 -> P 11 -> P 12 -> P 13 -> P 14 -> P 15 -> P k.
Proof.
  intros H. intros.
  assert (k = 0 \/ k = 1 \/ k = 2 \/ k = 3 \/ k = 4 \/ k = 5 \/ k = 6 \/ k = 7
          \/ k = 8 \/ k = 9 \/ k = 10 \/ k = 11 \/ k = 12 \/ k = 13 \/ k = 14
          \/ k = 15) as E by lia.
  repeat (destruct E as [-> | E]; [assumption|]). now subst.
Qed.

Lemma nibble_bits (n : Z) (k : nat) :
  nibble n k = Z.land (Z.shiftr n (4 * Z.of_nat k)) (Z.ones 4).
Proof.
  unfold nibble. rewrite Z.land_ones, Z.shiftr_div_pow2 by lia.
  replace (16 ^ Z.of_nat k) with (2 ^ (4 * Z.of_nat k)); [reflexivity|].
  rewrite Z.pow_mul_r by lia. reflexivity.
Qed.

(** Bit [i] of the value with version and variant set. *)
Lemma set_version_bit (version n i : Z) :
  Z.testbit (set_version version n) i =
  (Z.testbit n i && Z.testbit (Z.lnot (Z.shiftl 0xc000 48)) i
   || Z.testbit (Z.shiftl 0x8000 48) i)
  && Z.testbit (Z.lnot (Z.shiftl 0xf000 64)) i
  || Z.testbit (Z.shiftl version 76) i.
Proof.
  unfold set_version. cbv zeta.
  repeat (rewrite Z.lor_spec || rewrite Z.land_spec). reflexivity.
Qed.

Lemma version_nibble (n : Z) : nibble (set_version 4 n) 19 = 4.
Proof.
  rewrite nibble_bits. apply Z.bits_inj'. intros i Hi.
  rewrite Z.land_spec, Z.shiftr_spec by lia.
  rewrite set_version_bit.
  destruct (Z.lt_ge_cases i 4) as [Hlt|Hge].
  - assert (i = 0 \/ i = 1 \/ i = 2 \/ i = 3) as [-> | [-> | [-> | ->]]] by lia;
      cbn; now rewrite ?andb_false_r, ?orb_false_r, ?andb_true_r, ?orb_true_r.
  - replace (Z.testbit (Z.ones 4) i) with false
      by (symmetry; apply Z.bits_above_log2; cbn; lia).
    rewrite andb_false_r. symmetry. apply Z.bits_above_log2; cbn; lia.
Qed.

Lemma variant_nibble (n : Z) : 8 <= nibble (set_version 4 n) 15 <= 11.
Proof.
  assert (H : Z.shiftr (nibble (set_version 4 n) 15) 2 = 2).
  { rewrite nibble_bits. apply Z.bits_inj'. intros i Hi.
    rewrite Z.shiftr_spec, Z.land_spec, Z.shiftr_spec by lia.
    rewrite set_version_bit.
    destruct (Z.lt_ge_cases i 2) as [Hlt|Hge].
    - assert (i = 0 \/ i = 1) as [-> | ->] by lia;
        cbn; now rewrite ?andb_false_r, ?orb_false_r, ?andb_true_r, ?orb_true_r.
    - replace (Z.testbit (Z.ones 4) (i + 2)) with false
        by (symmetry; apply Z.bits_above_log2; cbn; lia).
      rewrite andb_false_r. symmetry. apply Z.bits_above_log2; cbn; lia. }
  rewrite Z.shiftr_div_pow2 in H by lia. change (2 ^ 2) with 4 in H.
  Z.to_euclidean_division_equations; lia.
Qed.

(** Setting the bits a second time changes nothing. *)
Lemma set_version_idempotent (version n : Z) :
  set_version version (set_version version n) = set_version version n.
Proof.
  apply Z.bits_inj'. intros i Hi. rewrite !set_version_bit.
  destruct (Z.testbit n i), (Z.testbit (Z.lnot (Z.shiftl 0xc000 48)) i),
    (Z.testbit (Z.shiftl 0x8000 48) i),
    (Z.testbit (Z.lnot (Z.shiftl 0xf000 64)) i),
    (Z.testbit (Z.shiftl version 76) i); reflexivity.
Qed.

Lemma set_version_range (n : Z) :
  0 <= n < 2 ^ 128 -> 0 <= set_version 4 n < 2 ^ 128.
Proof.
  intros [H0 H1].
  assert (Hn : 0 <= set_version 4 n).
  { unfold set_version. cbv zeta.
    apply Z.lor_nonneg. split; [|cbn; lia].
    apply Z.land_nonneg. left.
    apply Z.lor_nonneg. split; [|cbn; lia].
    apply Z.land_nonneg. now left. }
  split; [exact Hn|].
  assert (Hlog : Z.log2 n < 128).
  { destruct (Z.eq_dec n 0) as [->|]; [cbn; lia|]. apply Z.log2_lt_pow2; lia. }
  replace (set_version 4 n) with (set_version 4 n mod 2 ^ 128);
    [apply Z.mod_pos_bound; lia|].
  rewrite <- Z.land_ones by lia. apply Z.bits_inj'. intros i Hi.
  rewrite Z.land_spec.
  destruct (Z.lt_ge_cases i 128) as [Hlt|Hge].
  - rewrite Z.ones_spec_low by lia. apply andb_true_r.
  - rewrite Z.ones_spec_high by lia. rewrite andb_false_r.
    rewrite set_version_bit.
    rewrite (Z.bits_above_log2 n i) by lia.
    rewrite (Z.bits_above_log2 (Z.shiftl 0x8000 48) i) by (cbn; lia).
    rewrite (Z.bits_above_log2 (Z.shiftl 4 76) i) by (cbn; lia).
    reflexivity.
Qed.

End UuidBits.

(** ** The text of a UUID *)

Module UuidText.
Import EarthObservation Identifiers IdentifiersFacts UuidBits.
Local Open Scope string_scope.

Lemma hexdigit_cases (d : Z) (P : ascii -> Prop) :
  (forall k : Z, (0 <= k < 16)%Z -> (d mod 16 = k)%Z ->
     P (ascii_of_nat (Z.to_nat (if (k <? 10)%Z then 48 + k else 87 + k)%Z))) ->
  P (hexdigit d).
Proof.
  intros H. unfold hexdigit. cbv zeta. apply H; [|reflexivity].
  apply Z.mod_pos_bound. lia.
Qed.

Lemma is_lower_hex_hexdigit (d : Z) : is_lower_hex (hexdigit d) = true.
Proof.
  apply hexdigit_cases. intros k Hk _.
  apply (small_cases k
           (fun k => is_lower_hex
                       (ascii_of_nat
                          (Z.to_nat (if (k <? 10)%Z then 48 + k else 87 + k)%Z))
                     = true) Hk); reflexivity.
Qed.

Lemma hexdigit_nibble (n : Z) (k : nat) (v : Z) :
  nibble n k = v ->
  hexdigit (n / 16 ^ Z.of_nat k)
  = ascii_of_nat (Z.to_nat (if (v <? 10)%Z then 48 + v else 87 + v)%Z).
Proof. unfold nibble, hexdigit. cbv zeta. now intros ->. Qed.

Lemma variant_digit (n : Z) (k : nat) :
  (8 <= nibble n k <= 11)%Z -> mem (hexdigit (n / 16 ^ Z.of_nat k)) "89ab" = true.
Proof.
  intros H. rewrite (hexdigit_nibble n k _ eq_refl).
  assert (nibble n k = 8 \/ nibble n k = 9 \/ nibble n k = 10
          \/ nibble n k = 11)%Z as [-> | [-> | [-> | ->]]] by lia;
    reflexivity.
Qed.

(** The text of a UUID, character by character. *)
Lemma uuid_str_chars (n : Z) :
  let h := fun k : nat => hexdigit (n / 16 ^ Z.of_nat k) in
  uuid_str n =
  String (h 31%nat) (String (h 30%nat) (String (h 29%nat) (String (h 28%nat)
  (String (h 27%nat) (String (h 26%nat) (String (h 25%nat) (String (h 24%nat)
  (String "-" (String (h 23%nat) (String (h 22%nat) (String (h 21%nat)
  (String (h 20%nat) (String "-" (String (h 19%nat) (String (h 18%nat)
  (String (h 17%nat) (String (h 16%nat) (String "-" (String (h 15%nat)
  (String (h 14%nat) (String (h 13%nat) (String (h 12%nat) (String "-"
  (String (h 11%nat) (String (h 10%nat) (String (h 9%nat) (String (h 8%nat)
  (String (h 7%nat) (String (h 6%nat) (String (h 5%nat) (String (h 4%nat)
  (String (h 3%nat) (String (h 2%nat) (String (h 1%nat) (String (h 0%nat)
  EmptyString))))))))))))))))))))))))))))))))))).
Proof. reflexivity. Qed.

Lemma canonical_uuid_str (n : Z) :
  nibble n 19 = 4%Z -> (8 <= nibble n 15 <= 11)%Z ->
  is_canonical_uuid4 (uuid_str n) = true.
Proof.
  intros Hv Hr. rewrite uuid_str_chars. cbv zeta.
  unfold is_canonical_uuid4.
  cbn [canonical_from Nat.eqb orb].
  rewrite !is_lower_hex_hexdigit, (variant_digit n 15 Hr).
  rewrite (hexdigit_nibble n 19 4 Hv). reflexivity.
Qed.

(** *** Cleaning the text of a UUID gives back its 32 digits *)

Lemma remove_absent (c : ascii) (old s : string) :
  none_in (String c EmptyString) s = true ->
  remove_from (String c old) 0 s = s.
Proof.
  induction s as [|x rest IH]; [reflexivity|].
  cbn [none_in mem]. rewrite orb_false_r. intros H.
  apply andb_true_iff in H. destruct H as [Hx Hrest].
  cbn [remove_from prefix].
  destruct (ascii_dec c x) as [->|Hne].
  - now rewrite Ascii.eqb_refl in Hx.
  - now rewrite (IH Hrest).
Qed.

Lemma lstrip_absent (chars s : string) :
  none_in chars s = true -> lstrip chars s = s.
Proof.
  destruct s as [|x rest]; [reflexivity|]. cbn [none_in lstrip]. intros H.
  apply andb_true_iff in H. destruct H as [Hx _].
  now destruct (mem x chars).
Qed.

Lemma rstrip_absent (chars s : string) :
  none_in chars s = true -> rstrip chars s = s.
Proof.
  induction s as [|x rest IH]; [reflexivity|]. cbn [none_in rstrip]. intros H.
  apply andb_true_iff in H. destruct H as [Hx Hrest]. rewrite (IH Hrest).
  destruct rest; [|reflexivity]. now destruct (mem x chars).
Qed.

Lemma remove_single (c x : ascii) (rest : string) :
  remove_from (String c EmptyString) 0 (String x rest) =
  if Ascii.eqb c x
  then remove_from (String c EmptyString) 0 rest
  else String x (remove_from (String c EmptyString) 0 rest).
Proof.
  cbn [remove_from prefix String.length Nat.sub].
  destruct (ascii_dec c x) as [->|Hne].
  - rewrite Ascii.eqb_refl. now destruct rest.
  - apply Ascii.eqb_neq in Hne. now rewrite Hne.
Qed.

Lemma hexdigit_is_not (c : ascii) (d : Z) :
  is_lower_hex c = false ->
  Ascii.eqb c (hexdigit d) = false /\ Ascii.eqb (hexdigit d) c = false.
Proof.
  intros H. split; apply Ascii.eqb_neq; intros E;
    [rewrite E in H | rewrite <- E in H];
    now rewrite is_lower_hex_hexdigit in H.
Qed.

Ltac digits_differ c :=
  repeat match goal with
         | |- context [Ascii.eqb c (hexdigit ?d)] =>
             rewrite (proj1 (hexdigit_is_not c d eq_refl))
         | |- context [Ascii.eqb (hexdigit ?d) c] =>
             rewrite (proj2 (hexdigit_is_not c d eq_refl))
         end.

Lemma uuid_str_has_no (c : ascii) (n : Z) :
  is_lower_hex c = false -> Ascii.eqb c "-" = false ->
  none_in (String c EmptyString) (uuid_str n) = true.
Proof.
  intros Hc Hh. rewrite uuid_str_chars. cbv zeta. cbn [none_in mem].
  assert (Hh' : Ascii.eqb "-" c = false)
    by (now rewrite Ascii.eqb_sym).
  repeat match goal with
         | |- context [Ascii.eqb (hexdigit ?d) c] =>
             rewrite (proj2 (hexdigit_is_not c d Hc))
         end.
  rewrite Hh'. reflexivity.
Qed.

Lemma uuid_str_has_no_braces (n : Z) : none_in "{}" (uuid_str n) = true.
Proof.
  rewrite uuid_str_chars. cbv zeta. cbn [none_in mem].
  digits_differ "{"%char. digits_differ "}"%char. reflexivity.
Qed.

Lemma clean_uuid_str (n : Z) : clean (uuid_str n) = hexpad 32 n.
Proof.
  unfold clean, remove_all, strip.
  rewrite (remove_absent "u" "rn:") by now apply uuid_str_has_no.
  rewrite (remove_absent "u" "uid:") by now apply uuid_str_has_no.
  rewrite lstrip_absent, rstrip_absent by apply uuid_str_has_no_braces.
  rewrite uuid_str_chars. cbv zeta.
  repeat (rewrite remove_single;
          first [rewrite (proj1 (hexdigit_is_not "-" _ eq_refl))
                |rewrite Ascii.eqb_refl]).
  reflexivity.
Qed.

(** *** The digits-only parser reads back what [hexpad] writes *)

Lemma digit_value_hexdigit (d : Z) :
  digit_value (hexdigit d) = Some (d mod 16)%Z.
Proof.
  apply (hexdigit_cases d (fun c => digit_value c = Some (d mod 16)%Z)).
  intros k Hk ->.
  apply (small_cases k
           (fun k => digit_value
                       (ascii_of_nat
                          (Z.to_nat (if (k <? 10)%Z then 48 + k else 87 + k)%Z))
                     = Some k) Hk); reflexivity.
Qed.

Lemma hex_value_from_hexpad (width : nat) (n : Z) :
  forall acc,
    hex_value_from acc (hexpad width n)
    = Some (acc * 16 ^ Z.of_nat width + n mod 16 ^ Z.of_nat width)%Z.
Proof.
  induction width as [|w IH]; intros acc.
  - cbn [hexpad hex_value_from]. f_equal. cbn [Z.of_nat Z.pow].
    rewrite Z.mod_1_r. lia.
  - cbn [hexpad hex_value_from]. rewrite digit_value_hexdigit, IH. f_equal.
    rewrite Nat2Z.inj_succ, Z.pow_succ_r by lia.
    rewrite (Z.mul_comm 16 (16 ^ Z.of_nat w)).
    rewrite (Z.rem_mul_r n (16 ^ Z.of_nat w) 16) by lia. lia.
Qed.

Lemma hex_value_hexpad (n : Z) :
  (0 <= n < 2 ^ 128)%Z -> hex_value (hexpad 32 n) = Some n.
Proof.
  intros H. change (hex_value (hexpad 32 n))
    with (hex_value_from 0 (hexpad 32 n)).
  rewrite hex_value_from_hexpad. f_equal.
  change (16 ^ Z.of_nat 32)%Z with (2 ^ 128)%Z.
  rewrite Z.mod_small by exact H. lia.
Qed.

End UuidText.

(** ** [StrUUID4]: what is accepted *)

Module StrUUID4Facts.
Import EarthObservation Identifiers IdentifiersFacts UuidBits UuidText.
Local Open Scope string_scope.

Section Accepted.
Variable int16 : string -> option Z.

Local Abbreviation validate := (StrUUID4_validate int16).

Lemma validate_ok (v : raw) (out : string) :
  validate v = Ok out ->
  exists s m, v = RStr s /\ String.length (clean s) = 32%nat /\
              int16 (clean s) = Some m /\ (0 <= m < 2 ^ 128)%Z /\
              out = uuid_str (set_version 4 m).
Proof.
  intros H. destruct (validate_cases int16 v) as [(s & n & -> & Hu & Hok)|Hr];
    [|congruence].
  apply UUID_ok in Hu. destruct Hu as (m & Hl & Hi & Hr & ->).
  exists s, m. repeat split; trivial; try lia. congruence.
Qed.

Lemma validate_canonical (v : raw) (out : string) :
  validate v = Ok out -> is_canonical_uuid4 out = true.
Proof.
  intros H. apply validate_ok in H.
  destruct H as (s & m & _ & _ & _ & _ & ->).
  apply canonical_uuid_str; [apply version_nibble | apply variant_nibble].
Qed.

(** X15: whatever string [StrUUID4.validate] accepts (with a [urn:uuid:]
    prefix, braces, no hyphens, upper case), what it returns is the
    canonical text of a version-4 UUID: 36 characters, lower-case
    hexadecimal digits in groups of 8-4-4-4-12, the version digit 4 and the
    variant digit one of 8, 9, a, b. *)
Theorem StrUUID4_output_is_canonical (v : raw) (out : string) :
  validate v = Ok out -> is_canonical_uuid4 out = true.
Proof. apply validate_canonical. Qed.

(** [int(hex, 16)] reads 32 hexadecimal digits as their value. *)
Hypothesis int16_digits :
  forall n, (0 <= n < 2 ^ 128)%Z -> int16 (hexpad 32 n) = Some n.

Lemma validate_uuid_str (n : Z) :
  (0 <= n < 2 ^ 128)%Z ->
  validate (RStr (uuid_str n)) = Ok (uuid_str (set_version 4 n)).
Proof.
  intros H. unfold StrUUID4_validate, UUID.
  rewrite clean_uuid_str, (int16_digits n H).
  assert (Hl : String.length (hexpad 32 n) = 32%nat) by reflexivity.
  rewrite Hl. cbn [Nat.eqb negb].
  destruct H as [H0 H1].
  apply Z.leb_le in H0. apply Z.ltb_lt in H1. rewrite H0, H1. reflexivity.
Qed.

Lemma hexdigit_four (d : Z) : hexdigit d = "4"%char -> (d mod 16 = 4)%Z.
Proof.
  apply (hexdigit_cases d (fun c => c = "4"%char -> (d mod 16 = 4)%Z)).
  intros k Hk ->.
  apply (small_cases k
           (fun k => ascii_of_nat
                       (Z.to_nat (if (k <? 10)%Z then 48 + k else 87 + k)%Z)
                     = "4"%char -> k = 4%Z) Hk);
    intros E; try reflexivity; discriminate E.
Qed.

(** X16: the validator does not check the version: the text of any 128-bit
    value is accepted, and returned with the version and variant bits
    overwritten; when the version digit was not 4 the returned string
    differs from the one passed. *)
Theorem StrUUID4_accepts_any_version (n : Z) :
  (0 <= n < 2 ^ 128)%Z ->
  validate (RStr (uuid_str n)) = Ok (uuid_str (set_version 4 n)) /\
  (nibble n 19 <> 4%Z -> uuid_str (set_version 4 n) <> uuid_str n).
Proof.
  intros H. split; [now apply validate_uuid_str|].
  intros Hv E. apply Hv.
  apply (f_equal (String.get 14)) in E. rewrite !uuid_str_chars in E.
  cbv beta zeta in E. cbn [String.get] in E.
  apply (f_equal (fun o => match o with Some c => c | None => zero end)) in E.
  cbv beta iota in E.
  rewrite (hexdigit_nibble _ 19 4 (version_nibble n)) in E.
  symmetry in E. now apply hexdigit_four in E.
Qed.

(** X17: a returned value is accepted again, and returned unchanged. *)
Theorem StrUUID4_is_idempotent (v : raw) (out : string) :
  validate v = Ok out -> validate (RStr out) = Ok out.
Proof.
  intros H. apply validate_ok in H.
  destruct H as (s & m & _ & _ & _ & Hr & ->).
  rewrite validate_uuid_str by now apply set_version_range.
  now rewrite set_version_idempotent.
Qed.

End Accepted.

Section Fields.
Variable int16 : string -> option Z.

Hypothesis int16_digits :
  forall n, (0 <= n < 2 ^ 128)%Z -> int16 (hexpad 32 n) = Some n.

Lemma uuid_str_is_not_empty (n : Z) : String.eqb (uuid_str n) "" = false.
Proof. rewrite uuid_str_chars. reflexivity. Qed.

Lemma id_field_supplied (generated s : string) :
  String.eqb s "" = false ->
  id_field int16 generated (Some s) = StrUUID4_validate int16 (RStr s).
Proof. intros E. unfold id_field, set_id. now rewrite E. Qed.

(** X18: [StationProperties.station_name] is declared [StrUUID4]: a
    supplied name of fewer than 32 characters is rejected, while the default
    [''] is stored without validation. *)
Theorem short_station_names_are_rejected (name : string) :
  (String.length name < 32)%nat ->
  station_name_field int16 (Some (RStr name)) = Raise (not_uuid4 (RStr name)) /\
  station_name_field int16 None = Ok "".
Proof.
  intros H. split; [|reflexivity]. unfold station_name_field, field.
  now apply validate_short.
Qed.

(** X19: an accepted [id] of a request, tile, station or opportunity is the
    canonical text of a version-4 UUID.  A missing or empty [id] gives the
    generated one, as validated; a supplied [id] that is the text of a UUID
    carrying the version-4 bits is kept as it is. *)
Theorem id_is_generated_or_canonical (generated : string) (id : option string)
  (out : string) :
  id_field int16 generated id = Ok out ->
  is_canonical_uuid4 out = true /\
  (id = None \/ id = Some "" ->
   StrUUID4_validate int16 (RStr generated) = Ok out) /\
  (forall n, (0 <= n < 2 ^ 128)%Z ->
             id = Some (uuid_str (set_version 4 n)) ->
             out = uuid_str (set_version 4 n)).
Proof.
  intros H. split; [|split].
  - now apply (validate_canonical int16 _ out H).
  - intros [-> | ->]; exact H.
  - intros n Hn ->.
    pose proof (validate_uuid_str int16 int16_digits (set_version 4 n)
                  (set_version_range n Hn)) as Hkept.
    rewrite set_version_idempotent in Hkept.
    rewrite id_field_supplied in H by apply uuid_str_is_not_empty.
    rewrite Hkept in H. now injection H.
Qed.

End Fields.

Lemma StrUUID4_output_is_canonical_witness :
  StrUUID4_validate hex_value
    (RStr "urn:uuid:{12345678-1234-5678-1234-567812345678}")
  = Ok "12345678-1234-4678-9234-567812345678" /\
  is_canonical_uuid4 "12345678-1234-4678-9234-567812345678" = true.
Proof.
  assert (H : StrUUID4_validate hex_value
                (RStr "urn:uuid:{12345678-1234-5678-1234-567812345678}")
              = Ok "12345678-1234-4678-9234-567812345678")
    by (vm_compute; reflexivity).
  exact (conj H (StrUUID4_output_is_canonical hex_value _ _ H)).
Defined.

Lemma StrUUID4_accepts_any_version_witness :
  (0 <= 0 < 2 ^ 128)%Z /\
  StrUUID4_validate hex_value (RStr (uuid_str 0))
  = Ok (uuid_str (set_version 4 0)).
Proof.
  assert (H : (0 <= 0 < 2 ^ 128)%Z) by (split; [discriminate | reflexivity]).
  exact (conj H (proj1 (StrUUID4_accepts_any_version hex_value
                          hex_value_hexpad 0 H))).
Defined.

Lemma StrUUID4_is_idempotent_witness :
  StrUUID4_validate hex_value
    (RStr "{12345678123456781234567812345678}")
  = Ok "12345678-1234-4678-9234-567812345678" /\
  StrUUID4_validate hex_value (RStr "12345678-1234-4678-9234-567812345678")
  = Ok "12345678-1234-4678-9234-567812345678".
Proof.
  assert (H : StrUUID4_validate hex_value
                (RStr "{12345678123456781234567812345678}")
              = Ok "12345678-1234-4678-9234-567812345678")
    by (vm_compute; reflexivity).
  exact (conj H (StrUUID4_is_idempotent hex_value hex_value_hexpad _ _ H)).
Defined.

Lemma short_station_names_are_rejected_witness :
  (String.length "Svalbard" < 32)%nat /\
  forall int16 : string -> option Z,
    station_name_field int16 (Some (RStr "Svalbard"))
    = Raise (not_uuid4 (RStr "Svalbard")).
Proof.
  assert (H : (String.length "Svalbard" < 32)%nat) by (cbn; lia).
  split; [exact H|]. intros int16.
  exact (proj1 (short_station_names_are_rejected int16 "Svalbard" H)).
Defined.

Lemma id_is_generated_or_canonical_witness :
  id_field hex_value "12345678-1234-4678-9234-567812345678" None
  = Ok "12345678-1234-4678-9234-567812345678" /\
  is_canonical_uuid4 "12345678-1234-4678-9234-567812345678" = true.
Proof.
  assert (H : id_field hex_value "12345678-1234-4678-9234-567812345678" None
              = Ok "12345678-1234-4678-9234-567812345678")
    by (vm_compute; reflexivity).
  exact (conj H (proj1 (id_is_generated_or_canonical hex_value
                          hex_value_hexpad _ None _ H))).
Defined.

End StrUUID4Facts.
